(** * ChatApp-WeApRous: conversation synchronisation engine

    A shallow embedding of the client-side state kept by
    [frontend/src/hooks/useAppState.tsx] (the [AppStateProvider] component)
    and of the typing handler of [frontend/src/components/ChatArea.tsx],
    together with the properties of the merge, unread, typing, send and join
    operations.  The second half covers the rest of the provider
    (leaveChannel, refreshPeerList, registerPeer, clearChat, the notification
    preferences) and the components that call it (ChatInterface, ChatArea's
    handleSend, typing line and search, the Sidebar preview, MessageList's
    relative time).  [String.prototype.trim] and [toLowerCase] are parameters
    of the functions that use them.

    Conventions of the embedding:
    - a JS object used as a dictionary ([Record<string, T>]) is a [gmap string T];
      a JS [Set<string>] is a [gset string]; arrays are lists;
    - an optional field ([channel?], [sent?], [reactions?]) is an [option];
      both [undefined] and [null] are [None];
    - [x === y] on strings is [bool_decide (x = y)];
    - a React state setter called with an updater function is the updater
      applied to the state; console and notification calls are recorded in a
      list of [Effect]s, in program order;
    - the fields of a fetched record are strings, as the [Message] interface
      declares them; conversation keys that collide with a member of
      [Object.prototype] are outside the model. *)

From stdpp Require Import gmap strings list fin_maps.
From Stdlib Require Import ZArith Lia.

Open Scope string_scope.
Open Scope list_scope.

(** ** Data model (the interfaces at the top of useAppState.tsx) *)

Record User := mkUser {
  username : string;
  trackerIp : string;
  trackerPort : Z;
  peerPort : Z;
  webpeerIp : string;
  webpeerPort : Z;
  token : string
}.

Record Peer := mkPeer {
  peer_username : string;
  ip : string;
  port : Z
}.

Record Message := mkMessage {
  from : string;
  message : string;
  time : string;
  channel : option string;
  sent : option bool;
  reactions : option (gmap string (list string))
}.

#[global] Instance User_eq_dec : EqDecision User.
Proof. solve_decision. Defined.

#[global] Instance Message_eq_dec : EqDecision Message.
Proof. solve_decision. Defined.

(** Calls observable from outside a callback, in program order: sound, OS
    notification, console, a [fetch] to a remote endpoint, and the call of
    the [setMessages] setter (with the store its updater produced). *)
Inductive Effect :=
| PlayNotificationSound
| ShowBrowserNotification (title body : string)
| ConsoleWarn (text : string)
| ConsoleError (text : string)
| ConsoleLog (text : string)
| Fetch (host : string) (hostPort : Z) (path : string)
| SetMessages (next : gmap string (list Message)).

(** The two effects of the Notification Dispatcher. *)
Definition isNotification (e : Effect) : bool :=
  match e with
  | PlayNotificationSound | ShowBrowserNotification _ _ => true
  | _ => false
  end.

(** ** JavaScript helpers *)

(** Truthiness of a string: only the empty string is falsy. *)
Definition truthy (s : string) : bool := negb (bool_decide (s = "")).

(** Truthiness of an optional string field ([undefined], [null] and the empty
    string are falsy). *)
Definition truthyOpt (c : option string) : bool :=
  match c with
  | Some s => truthy s
  | None => false
  end.

(** [Array.prototype.findIndex]: index of the first element satisfying [p],
    [-1] when there is none. *)
Fixpoint findIndexFrom {A} (p : A → bool) (i : Z) (l : list A) : Z :=
  match l with
  | [] => (-1)%Z
  | x :: l' => if p x then i else findIndexFrom p (i + 1)%Z l'
  end.

Definition findIndex {A} (p : A → bool) (l : list A) : Z := findIndexFrom p 0%Z l.

(** [Array.prototype.filter] with the (element, index) callback. *)
Fixpoint filterIndexFrom {A} (p : A → nat → bool) (i : nat) (l : list A) : list A :=
  match l with
  | [] => []
  | x :: l' =>
      if p x i then x :: filterIndexFrom p (S i) l' else filterIndexFrom p (S i) l'
  end.

Definition filterIndex {A} (p : A → nat → bool) (l : list A) : list A :=
  filterIndexFrom p 0%nat l.

(** ** The polling merge (the [setMessages] updater of the polling effect) *)

(** The predicate handed to [findIndex]:
    [m.from === msg.from && m.message === msg.message && m.time === msg.time]. *)
Definition sameMessage (msg m : Message) : bool :=
  bool_decide (from m = from msg)
  && bool_decide (message m = message msg)
  && bool_decide (time m = time msg).

(** The object pushed for a new record. *)
Definition storedMessage (currentUser : User) (msg : Message) : Message :=
  {| from := from msg;
     message := message msg;
     time := time msg;
     channel := channel msg;
     sent := Some (bool_decide (from msg = username currentUser));
     reactions := Some (default ∅ (reactions msg)) |}.

(** [msg.channel === 'direct' || !msg.channel] *)
Definition isDirect (msg : Message) : bool :=
  bool_decide (channel msg = Some "direct") || negb (truthyOpt (channel msg)).

(** The first [if] of the callback: [None] is the early [return] for a direct
    record of the current user, otherwise the value assigned to [target]. *)
Definition resolveTarget (currentUser : User) (msg : Message) : option string :=
  if isDirect msg then
    if bool_decide (from msg = username currentUser) then None
    else Some (from msg)
  else Some (default "" (channel msg)).

(** Sound and notification calls for a newly pushed record. *)
Definition notifyNew (currentUser : User) (hidden : bool) (target : string)
    (msg : Message) : list Effect :=
  if negb (bool_decide (from msg = username currentUser)) then
    PlayNotificationSound ::
    (if hidden then
       let isChannel :=
         truthyOpt (channel msg) && negb (bool_decide (channel msg = Some "direct")) in
       let title := if isChannel then String.append "#" target else from msg in
       [ShowBrowserNotification title (message msg)]
     else [])
  else [].

(** One iteration of [data.messages.forEach]; the accumulator is the object
    [newMessages] and the effects issued so far. [hidden] is [document.hidden]. *)
Definition mergeRecord (currentUser : User) (hidden : bool) (msg : Message)
    (acc : gmap string (list Message) * list Effect)
    : gmap string (list Message) * list Effect :=
  let '(newMessages, effs) := acc in
  match resolveTarget currentUser msg with
  | None => acc
  | Some target =>
      if negb (truthy target) then
        (newMessages, effs ++ [ConsoleWarn "Could not determine target for message:"])
      else
        let newMessages :=
          match newMessages !! target with
          | None => <[target := []]> newMessages
          | Some _ => newMessages
          end in
        let existing := default [] (newMessages !! target) in
        let existingMsgIndex := findIndex (sameMessage msg) existing in
        if (existingMsgIndex =? -1)%Z then
          (<[target := existing ++ [storedMessage currentUser msg]]> newMessages,
           effs ++ notifyNew currentUser hidden target msg)
        else (newMessages, effs)
  end.

(** The whole updater: [newMessages = { ...prev }], the [forEach], and
    [return newMessages]. *)
Definition pollUpdater (currentUser : User) (hidden : bool)
    (dataMessages : list Message) (prev : gmap string (list Message))
    : gmap string (list Message) * list Effect :=
  foldl (λ acc msg, mergeRecord currentUser hidden msg acc) (prev, []) dataMessages.

(** ** Application state (the [useState] cells of [AppStateProvider]) *)

Record AppState := mkAppState {
  currentUser : option User;
  channels : list string;
  peers : list Peer;
  messages : gmap string (list Message);
  lastReadPositions : gmap string nat;
  typingUsers : gmap string (gset string)
}.

Definition initialState : AppState :=
  {| currentUser := None; channels := []; peers := []; messages := ∅;
     lastReadPositions := ∅; typingUsers := ∅ |}.

Definition withMessages (f : gmap string (list Message) → gmap string (list Message))
    (st : AppState) : AppState :=
  {| currentUser := currentUser st; channels := channels st; peers := peers st;
     messages := f (messages st);
     lastReadPositions := lastReadPositions st; typingUsers := typingUsers st |}.

Definition withLastReadPositions (f : gmap string nat → gmap string nat)
    (st : AppState) : AppState :=
  {| currentUser := currentUser st; channels := channels st; peers := peers st;
     messages := messages st;
     lastReadPositions := f (lastReadPositions st); typingUsers := typingUsers st |}.

Definition withChannels (f : list string → list string) (st : AppState) : AppState :=
  {| currentUser := currentUser st; channels := f (channels st); peers := peers st;
     messages := messages st;
     lastReadPositions := lastReadPositions st; typingUsers := typingUsers st |}.

Definition withTypingUsers (f : gmap string (gset string) → gmap string (gset string))
    (st : AppState) : AppState :=
  {| currentUser := currentUser st; channels := channels st; peers := peers st;
     messages := messages st;
     lastReadPositions := lastReadPositions st; typingUsers := f (typingUsers st) |}.

Definition withCurrentUser (u : option User) (st : AppState) : AppState :=
  {| currentUser := u; channels := channels st; peers := peers st;
     messages := messages st;
     lastReadPositions := lastReadPositions st; typingUsers := typingUsers st |}.

(** ** Unread counts and read positions *)

(** [msg.from === currentUser?.username || msg.sent] *)
Definition isSent (cu : option User) (msg : Message) : bool :=
  match cu with
  | Some u => bool_decide (from msg = username u)
  | None => false
  end
  || default false (sent msg).

(** The [useMemo] computing [unreadCounts]: one entry per key of [messages]. *)
Definition unreadCounts (st : AppState) : gmap string nat :=
  map_imap
    (λ target targetMessages,
       let lastRead := default 0%nat (lastReadPositions st !! target) in
       Some (length
               (filterIndex
                  (λ msg index,
                     negb (isSent (currentUser st) msg) && bool_decide (lastRead ≤ index)%nat)
                  targetMessages)))
    (messages st).

(** How the sidebar reads a count: [unreadCounts[key] || 0]. *)
Definition unreadOf (st : AppState) (key : string) : nat :=
  default 0%nat (unreadCounts st !! key).

Definition markAsRead (target : string) (st : AppState) : AppState :=
  let targetMessages := default [] (messages st !! target) in
  withLastReadPositions (λ prev, <[target := length targetMessages]> prev) st.

Definition clearChat (target : string) (st : AppState) : AppState :=
  withLastReadPositions (λ prev, <[target := 0%nat]> prev)
    (withMessages (λ prev, <[target := []]> prev) st).

(** The state part of [logout] (the interval is handled in [World] below). *)
Definition logout (st : AppState) : AppState :=
  {| currentUser := None; channels := []; peers := []; messages := ∅;
     lastReadPositions := ∅; typingUsers := ∅ |}.

(** ** Typing registry *)

(** [currentUser?.username || ''] *)
Definition typingName (cu : option User) : string :=
  match cu with
  | Some u => if truthy (username u) then username u else ""
  | None => ""
  end.

(** The updater passed to [setTypingUsers]. *)
Definition setTypingUpdater (cu : option User) (target : string) (isTyping : bool)
    (prev : gmap string (gset string)) : gmap string (gset string) :=
  let newTyping :=
    match prev !! target with
    | None => <[target := ∅]> prev
    | Some _ => prev
    end in
  let old := default ∅ (newTyping !! target) in
  let updated :=
    if isTyping then old ∪ {[typingName cu]} else old ∖ {[typingName cu]} in
  let newTyping := <[target := updated]> newTyping in
  if (size updated =? 0)%nat then delete target newTyping else newTyping.

Definition setTyping (target : string) (isTyping : bool) (st : AppState) : AppState :=
  withTypingUsers (setTypingUpdater (currentUser st) target isTyping) st.

(** ** Asynchronous callbacks

    An [async] function of the provider is a computation over the state and
    the effects issued so far that either returns or throws.  The state and
    the effects survive a throw: React keeps what the setters already did. *)

Inductive Outcome (A : Type) :=
| Returned (a : A)
| Thrown (error : string).
Arguments Returned {A} a.
Arguments Thrown {A} error.

Definition Async (A : Type) : Type :=
  AppState * list Effect → Outcome A * (AppState * list Effect).

#[global] Instance Async_ret : MRet Async := λ A a s, (Returned a, s).

#[global] Instance Async_bind : MBind Async := λ A B k m s,
  match m s with
  | (Returned a, s') => k a s'
  | (Thrown e, s') => (Thrown e, s')
  end.

Definition throw {A} (error : string) : Async A := λ s, (Thrown error, s).

(** [try { body } catch (error) { handler error }] *)
Definition tryCatch {A} (body : Async A) (handler : string → Async A) : Async A :=
  λ s, match body s with
       | (Returned a, s') => (Returned a, s')
       | (Thrown e, s') => handler e s'
       end.

Definition emit (e : Effect) : Async unit := λ '(st, effs), (Returned (), (st, effs ++ [e])).

Definition emitAll (es : list Effect) : Async unit :=
  λ '(st, effs), (Returned (), (st, effs ++ es)).

Definition getState : Async AppState := λ '(st, effs), (Returned st, (st, effs)).

Definition update (f : AppState → AppState) : Async unit :=
  λ '(st, effs), (Returned (), (f st, effs)).

(** [setMessages(updater)]: the store changes and the call is recorded. *)
Definition setMessages (f : gmap string (list Message) → gmap string (list Message))
    : Async unit :=
  λ '(st, effs), (Returned (), (withMessages f st, effs ++ [SetMessages (f (messages st))])).

(** [setMessages(updater)] for an updater that also issues effects while it
    runs (the polling merge). *)
Definition setMessagesWith
    (f : gmap string (list Message) → gmap string (list Message) * list Effect)
    : Async unit :=
  λ '(st, effs),
    let '(next, issued) := f (messages st) in
    (Returned (), (withMessages (λ _, next) st, effs ++ SetMessages next :: issued)).

(** What the remote end does with a request is an input of the model. *)
Inductive Reply (D : Type) :=
| Rejected (error : string)
| Resolved (data : D).
Arguments Rejected {D} error.
Arguments Resolved {D} data.

(** [await fetch(...)] followed by [await response.json()]: the request is
    issued, then either of the two awaits throws or the parsed body comes back. *)
Definition fetchJson {D} (host : string) (hostPort : Z) (path : string)
    (reply : Reply D) : Async D :=
  emit (Fetch host hostPort path) ;;
  match reply with
  | Rejected error => throw error
  | Resolved data => mret data
  end.

(** Body of the send and join responses: [{status, message}]; an absent
    [message] is the empty string (both are falsy). *)
Record StatusData := mkStatusData {
  status : string;
  statusMessage : string
}.

(** Body of the get-messages response: [{status, messages}]. *)
Record PollData := mkPollData {
  pollStatus : string;
  pollMessages : option (list Message)
}.

(** ** sendMessage *)

(** The object appended by [sendMessage]; [now] is [new Date().toISOString()]. *)
Definition sentMessage (u : User) (text now : string) : Message :=
  {| from := username u; message := text; time := now; channel := None;
     sent := Some true; reactions := Some ∅ |}.

Definition sendMessage (now text target : string) (isChannel : bool)
    (reply : Reply StatusData) : Async unit :=
  st ← getState;
  match currentUser st with
  | None => throw "User not logged in"
  | Some u =>
      setMessages (λ prev,
        let targetMessages := default [] (prev !! target) in
        <[target := targetMessages ++ [sentMessage u text now]]> prev) ;;
      tryCatch
        (if negb isChannel then
           data ← fetchJson (webpeerIp u) (webpeerPort u) "/send-peer" reply;
           if negb (bool_decide (status data = "success"))
           then emit (ConsoleError "Failed to send P2P message:")
           else mret ()
         else
           data ← fetchJson (webpeerIp u) (webpeerPort u) "/broadcast-peer" reply;
           if bool_decide (status data = "success")
           then emit (ConsoleLog "Broadcasted to peers")
           else emit (ConsoleError "Failed to broadcast:"))
        (λ error, emit (ConsoleError "Error sending message:") ;; throw error)
  end.

(** ** joinChannel *)

Definition includes (x : string) (l : list string) : bool := bool_decide (x ∈ l).

Definition joinChannel (channelName : string)
    (trackerReply webpeerReply : Reply StatusData) : Async unit :=
  st ← getState;
  match currentUser st with
  | None => throw "User not logged in"
  | Some u =>
      data ← fetchJson (trackerIp u) (trackerPort u) "/add-list" trackerReply;
      if negb (bool_decide (status data = "success")) then
        throw (if truthy (statusMessage data) then statusMessage data
               else "Failed to join channel")
      else
        webpeerData ← fetchJson (webpeerIp u) (webpeerPort u) "/join-channel" webpeerReply;
        (if bool_decide (status webpeerData = "success")
         then emit (ConsoleLog "Auto-connected to peers in channel via P2P")
         else mret ()) ;;
        if negb (includes channelName (channels st)) then
          update (withChannels (λ prev, prev ++ [channelName])) ;;
          setMessages (λ prev, <[channelName := []]> prev) ;;
          update (withLastReadPositions (λ prev, <[channelName := 0%nat]> prev))
        else mret ()
  end.

(** ** One polling cycle (the callback given to [setInterval]) *)

Definition pollCallback (u : User) (hidden : bool) (reply : Reply PollData) : Async unit :=
  tryCatch
    (data ← fetchJson (webpeerIp u) (webpeerPort u) "/get-messages" reply;
     if bool_decide (pollStatus data = "success") then
       match pollMessages data with
       | Some dataMessages => setMessagesWith (pollUpdater u hidden dataMessages)
       | None => mret ()
       end
     else mret ())
    (λ error, emit (ConsoleError "Error polling messages:")).

(** Running a callback from a state, with an empty effect log. *)
Definition runAsync {A} (m : Async A) (st : AppState) : Outcome A * (AppState * list Effect) :=
  m (st, []).

(** ** The synchronisation loop

    The polling [useEffect] depends on [currentUser]: when an identity
    appears it starts an interval whose callback closes over that identity,
    and its cleanup clears the interval when the identity changes.  A tick
    issues a fetch; the rest of the callback runs when that fetch settles,
    on the state of that moment ([step] keeps the state part of the
    callback).  Nothing in the callback looks at the current identity or at
    the interval again. *)

Record World := mkWorld {
  app : AppState;
  interval : option User;   (* the live interval and the identity it closes over *)
  inflight : list User      (* fetches awaiting their reply, with their identity *)
}.

Definition initialWorld : World :=
  {| app := initialState; interval := None; inflight := [] |}.

Inductive Event :=
| EvRegister (user : User)      (* registerPeer reached setCurrentUser(user) *)
| EvLogout                      (* logout() *)
| EvTick                        (* the interval fires *)
| EvSettle (i : nat) (hidden : bool) (reply : Reply PollData).
                                (* the i-th outstanding fetch settles *)

Definition step (e : Event) (w : World) : World :=
  match e with
  | EvRegister user =>
      {| app := withCurrentUser (Some user) (app w);
         interval := Some user;
         inflight := inflight w |}
  | EvLogout =>
      {| app := logout (app w); interval := None; inflight := inflight w |}
  | EvTick =>
      match interval w with
      | Some u => {| app := app w; interval := interval w; inflight := inflight w ++ [u] |}
      | None => w
      end
  | EvSettle i hidden reply =>
      match inflight w !! i with
      | Some u =>
          {| app := (runAsync (pollCallback u hidden reply) (app w)).2.1;
             interval := interval w;
             inflight := delete i (inflight w) |}
      | None => w
      end
  end.

Definition run (es : list Event) (w : World) : World :=
  foldl (λ w e, step e w) w es.

Definition isRegister (e : Event) : bool :=
  match e with
  | EvRegister _ => true
  | _ => false
  end.

(** ** Typing handler of ChatArea

    The component keeps one timeout handle in [typingTimeoutRef]; the runtime
    keeps the pending timeouts.  Time is counted in milliseconds. *)

Record Timer := mkTimer {
  timerId : nat;
  deadline : nat;
  timerTarget : string;       (* [target] captured by the callback *)
  timerUser : option User     (* [currentUser] captured by its [setTyping] *)
}.

#[global] Instance Timer_eq_dec : EqDecision Timer.
Proof. solve_decision. Defined.

Record ChatArea := mkChatArea {
  areaApp : AppState;
  messageText : string;
  typingTimeoutRef : option nat;
  timers : list Timer;
  nextTimerId : nat;
  now : nat
}.

Definition typingWindow : nat := 3000.

(** [currentPeer || currentChannel] *)
Definition currentTarget (currentPeer currentChannel : option string) : option string :=
  if truthyOpt currentPeer then currentPeer else currentChannel.

Definition clearTimeout (id : nat) (ts : list Timer) : list Timer :=
  filter (λ t, timerId t ≠ id) ts.

Definition handleInputChange (value : string) (currentPeer currentChannel : option string)
    (w : ChatArea) : ChatArea :=
  let target := currentTarget currentPeer currentChannel in
  if negb (truthyOpt target) then
    {| areaApp := areaApp w; messageText := value;
       typingTimeoutRef := typingTimeoutRef w; timers := timers w;
       nextTimerId := nextTimerId w; now := now w |}
  else
    let target := default "" target in
    let app1 := setTyping target true (areaApp w) in
    let pending :=
      match typingTimeoutRef w with
      | Some id => clearTimeout id (timers w)
      | None => timers w
      end in
    let t := {| timerId := nextTimerId w; deadline := (now w + typingWindow)%nat;
                timerTarget := target; timerUser := currentUser (areaApp w) |} in
    {| areaApp := app1; messageText := value;
       typingTimeoutRef := Some (nextTimerId w);
       timers := pending ++ [t];
       nextTimerId := S (nextTimerId w);
       now := now w |}.

(** The timeout callback: [setTyping(target, false)] with the captured values. *)
Definition fire (t : Timer) (st : AppState) : AppState :=
  withTypingUsers (setTypingUpdater (timerUser t) (timerTarget t) false) st.

Definition isDue (n : nat) (t : Timer) : bool := bool_decide (deadline t ≤ n)%nat.

(** One millisecond passes: the timeouts that are due run, in the order they
    were registered, and leave the pending list. *)
Definition tick (w : ChatArea) : ChatArea :=
  let n := S (now w) in
  {| areaApp := foldl (λ st t, fire t st) (areaApp w) (filter (λ t, isDue n t = true) (timers w));
     messageText := messageText w;
     typingTimeoutRef := typingTimeoutRef w;
     timers := filter (λ t, isDue n t ≠ true) (timers w);
     nextTimerId := nextTimerId w;
     now := n |}.

Fixpoint advance (ms : nat) (w : ChatArea) : ChatArea :=
  match ms with
  | O => w
  | S ms' => advance ms' (tick w)
  end.

(** Is [name] shown as typing in [target]? ([typingUsers[target]] contains it.) *)
Definition isTypingIn (name target : string) (st : AppState) : Prop :=
  ∃ s, typingUsers st !! target = Some s ∧ name ∈ s.

(** ** Notions used in the statements *)

(** The store component of one merge step. *)
Definition mergeStore (u : User) (msg : Message) (s : gmap string (list Message))
    : gmap string (list Message) :=
  (mergeRecord u false msg (s, [])).1.

(** Some entry of [l] agrees with [msg] on (sender, body, timestamp). *)
Definition alreadyStored (msg : Message) (l : list Message) : bool :=
  existsb (sameMessage msg) l.

(** Nothing is left to do for [msg] in the store [s]: it is skipped, or its
    target sequence already holds an entry with its key. *)
Definition settled (u : User) (msg : Message) (s : gmap string (list Message)) : Prop :=
  match resolveTarget u msg with
  | None => True
  | Some t => truthy t = false ∨ alreadyStored msg (default [] (s !! t)) = true
  end.

(** The unread count as the specification words it:
    [count(messages[cursor:] where sender != localIdentity)]. *)
Definition specUnread (st : AppState) (key : string) : nat :=
  let cursor := default 0%nat (lastReadPositions st !! key) in
  let sequence := default [] (messages st !! key) in
  length (filter (λ m, Some (from m) ≠ username <$> currentUser st) (drop cursor sequence)).

(** No key of the typing registry maps to the empty set. *)
Definition typingInv (reg : gmap string (gset string)) : Prop :=
  ∀ k s, reg !! k = Some s → s ≠ ∅.

(** A sequence of [setTyping] calls, each with the identity current at the
    time, applied to the empty registry. *)
Definition typingAfter (calls : list (option User * string * bool))
    : gmap string (gset string) :=
  foldl (λ reg '(cu, target, isTyping), setTypingUpdater cu target isTyping reg) ∅ calls.

(** The reading of the cancellation sentence: whatever happens after a
    logout, short of a new registration, the store stays empty. *)
Definition logoutFreezesStore : Prop :=
  ∀ (w : World) (es : list Event),
    forallb (λ e, negb (isRegister e)) es = true →
    messages (app (run es (step EvLogout w))) = ∅.

(** The only pending typing timeout is the one the component's ref holds. *)
Definition wfArea (w : ChatArea) : Prop :=
  ∀ t, t ∈ timers w → typingTimeoutRef w = Some (timerId t).

(** ** States used in the examples *)

(** A store holding a message flagged [sent] whose sender is not the
    current user: alice's last poll settled after bob took over the session. *)
Definition takenOverState : AppState :=
  {| currentUser := Some (mkUser "bob" "127.0.0.1" 8000 9001 "127.0.0.1" 9002 "");
     channels := []; peers := [];
     messages := {[ "general" :=
       [mkMessage "alice" "hello" "2025-01-01T00:00:00.000Z" (Some "general")
                  (Some true) (Some ∅)] ]};
     lastReadPositions := ∅; typingUsers := ∅ |}.

(** A chat area right after alice logged in: nothing typed, no timeout. *)
Definition aliceArea : ChatArea :=
  {| areaApp := withCurrentUser
                  (Some (mkUser "alice" "127.0.0.1" 8000 9001 "127.0.0.1" 9002 ""))
                  initialState;
     messageText := ""; typingTimeoutRef := None; timers := [];
     nextTimerId := 1; now := 0 |}.

(** bob is in "general" with one message read out of one. *)
Definition joinedState : AppState :=
  {| currentUser := Some (mkUser "bob" "127.0.0.1" 8000 9001 "127.0.0.1" 9002 "");
     channels := ["general"]; peers := [];
     messages := {[ "general" :=
       [mkMessage "carol" "yo" "2025-01-01T00:00:00.000Z" (Some "general")
                  (Some false) (Some ∅)] ]};
     lastReadPositions := {[ "general" := 1%nat ]};
     typingUsers := ∅ |}.

(** * The rest of the provider and its callers *)

(** ** leaveChannel, refreshPeerList, registerPeer *)

Definition withPeers (f : list Peer → list Peer) (st : AppState) : AppState :=
  {| currentUser := currentUser st; channels := channels st; peers := f (peers st);
     messages := messages st;
     lastReadPositions := lastReadPositions st; typingUsers := typingUsers st |}.

Definition leaveChannel (channelName : string) (reply : Reply StatusData) : Async unit :=
  st ← getState;
  match currentUser st with
  | None => throw "User not logged in"
  | Some u =>
      tryCatch
        (data ← fetchJson (trackerIp u) (trackerPort u) "/remove-list" reply;
         if bool_decide (status data = "success") then
           update (withChannels (λ prev, filter (λ c, c ≠ channelName) prev)) ;;
           setMessages (λ prev, delete channelName prev) ;;
           update (withLastReadPositions (λ prev, delete channelName prev))
         else mret ())
        (λ error, emit (ConsoleError "Failed to leave channel:"))
  end.

(** A reply whose [response.ok] is looked at: the fetch is rejected, the
    response is not ok, its body cannot be read, or the body comes back. *)
Inductive HttpReply (D : Type) :=
| HttpRejected (error : string)
| HttpNotOk (code : Z)
| HttpBadBody (error : string)
| HttpOk (data : D).
Arguments HttpRejected {D} error.
Arguments HttpNotOk {D} code.
Arguments HttpBadBody {D} error.
Arguments HttpOk {D} data.

(** Body of the get-list response: [{status, peers, channels}];
    [listChannels] holds [Object.keys(data.channels)] when the field is there. *)
Record PeerListData := mkPeerListData {
  listStatus : string;
  listPeers : list Peer;
  listChannels : option (list string)
}.

Definition refreshPeerList (reply : HttpReply PeerListData) : Async unit :=
  st ← getState;
  match currentUser st with
  | None => mret ()
  | Some u =>
      tryCatch
        (emit (Fetch (trackerIp u) (trackerPort u) "/get-list") ;;
         match reply with
         | HttpRejected error => throw error
         | HttpNotOk code => emit (ConsoleError "Failed to refresh peers: HTTP")
         | HttpBadBody error => throw error
         | HttpOk data =>
             if bool_decide (listStatus data = "success") then
               update (withPeers (λ _,
                 filter (λ p, peer_username p ≠ username u) (listPeers data))) ;;
               match listChannels data with
               | Some keys => update (withChannels (λ _, keys))
               | None => mret ()
               end
             else mret ()
         end)
        (λ error, emit (ConsoleError "Failed to refresh peers:"))
  end.

Definition initWebPeer (user : User) (reply : Reply StatusData) : Async unit :=
  data ← fetchJson (webpeerIp user) (webpeerPort user) "/init-peer" reply;
  if negb (bool_decide (status data = "success")) then
    throw (if truthy (statusMessage data) then statusMessage data
           else "Failed to initialize peer")
  else mret ().

Definition registerPeerWithTracker (user : User) (reply : HttpReply unit) : Async unit :=
  emit (Fetch (trackerIp user) (trackerPort user) "/submit-info") ;;
  match reply with
  | HttpRejected error => throw error
  | HttpNotOk _ => throw "Failed to register with tracker"
  | HttpBadBody _ | HttpOk _ => mret ()
  end.

(** [peerInfo] is the form's record; its token is replaced by [''] . *)
Definition registerPeer (peerInfo : User) (webpeerReply : Reply StatusData)
    (trackerReply : HttpReply unit) : Async unit :=
  let user :=
    {| username := username peerInfo; trackerIp := trackerIp peerInfo;
       trackerPort := trackerPort peerInfo; peerPort := peerPort peerInfo;
       webpeerIp := webpeerIp peerInfo; webpeerPort := webpeerPort peerInfo;
       token := "" |} in
  initWebPeer user webpeerReply ;;
  registerPeerWithTracker user trackerReply ;;
  update (withCurrentUser (Some user)).

(** ** Operations of the provider as one alphabet *)

Inductive Action :=
| ARegister (peerInfo : User) (webpeerReply : Reply StatusData)
            (trackerReply : HttpReply unit)
| ALogout
| AJoin (channelName : string) (trackerReply webpeerReply : Reply StatusData)
| ALeave (channelName : string) (reply : Reply StatusData)
| ARefresh (reply : HttpReply PeerListData)
| ASend (isoNow text target : string) (isChannel : bool) (reply : Reply StatusData)
| APoll (u : User) (hidden : bool) (reply : Reply PollData)
| AClear (target : string)
| AMarkRead (target : string)
| ASetTyping (target : string) (isTyping : bool).

(** The state left by one operation ([APoll] is a cycle, started under the
    identity [u], whose fetch settles now). *)
Definition perform (a : Action) (st : AppState) : AppState :=
  match a with
  | ARegister peerInfo r1 r2 => (runAsync (registerPeer peerInfo r1 r2) st).2.1
  | ALogout => logout st
  | AJoin c r1 r2 => (runAsync (joinChannel c r1 r2) st).2.1
  | ALeave c r => (runAsync (leaveChannel c r) st).2.1
  | ARefresh r => (runAsync (refreshPeerList r) st).2.1
  | ASend isoNow text target isChannel r =>
      (runAsync (sendMessage isoNow text target isChannel r) st).2.1
  | APoll u hidden r => (runAsync (pollCallback u hidden r) st).2.1
  | AClear target => clearChat target st
  | AMarkRead target => markAsRead target st
  | ASetTyping target isTyping => setTyping target isTyping st
  end.

Definition performAll (actions : list Action) (st : AppState) : AppState :=
  foldl (λ st a, perform a st) st actions.

(** ** Notification preferences (localStorage)

    [localStorage] is a map from keys to strings; [getItem] of a missing key
    is [null]. *)

Definition soundKey : string := "chat-sound-enabled".
Definition browserNotificationsKey : string := "chat-browser-notifications-enabled".

(** [playNotificationSound]: is the tone produced? *)
Definition playNotificationSound (storage : gmap string string) : bool :=
  let soundEnabled := negb (bool_decide (storage !! soundKey = Some "false")) in
  soundEnabled.

(** [showBrowserNotification]: is a [Notification] created?  [hasApi] is
    ['Notification' in window], [permission] is [Notification.permission]. *)
Definition showBrowserNotification (storage : gmap string string) (hasApi : bool)
    (permission : string) : bool :=
  let notificationsEnabled :=
    bool_decide (storage !! browserNotificationsKey = Some "true") in
  if negb notificationsEnabled || negb hasApi then false
  else bool_decide (permission = "granted").

(** The initial values of the two switches of the Settings panel:
    [saved ? saved === 'true' : default]. *)
Definition savedFlag (storage : gmap string string) (key : string) (dflt : bool) : bool :=
  match storage !! key with
  | Some saved => if truthy saved then bool_decide (saved = "true") else dflt
  | None => dflt
  end.

Definition settingsSoundEnabled (storage : gmap string string) : bool :=
  savedFlag storage soundKey true.

Definition settingsBrowserNotificationsEnabled (storage : gmap string string) : bool :=
  savedFlag storage browserNotificationsKey false.

(** [b.toString()] *)
Definition boolToString (b : bool) : string := if b then "true" else "false".

(** The two effects of the Settings panel writing its switches back. *)
Definition settingsPersist (soundEnabled browserNotificationsEnabled : bool)
    (storage : gmap string string) : gmap string string :=
  <[browserNotificationsKey := boolToString browserNotificationsEnabled]>
    (<[soundKey := boolToString soundEnabled]> storage).

(** ** ChatInterface: the selected conversation *)

Module ChatInterface.

Record Selection := mkSelection {
  currentChannel : option string;
  currentPeer : option string
}.

Definition initial : Selection := {| currentChannel := None; currentPeer := None |}.

Definition handleChannelSelect (channel : option string) (sel : Selection) : Selection :=
  match channel with
  | None => {| currentChannel := None; currentPeer := currentPeer sel |}
  | Some c =>
      if bool_decide (currentChannel sel = Some c) then
        {| currentChannel := None; currentPeer := currentPeer sel |}
      else {| currentChannel := Some c; currentPeer := None |}
  end.

Definition handlePeerSelect (peer : option string) (sel : Selection) : Selection :=
  match peer with
  | None => {| currentChannel := currentChannel sel; currentPeer := None |}
  | Some p =>
      if bool_decide (currentPeer sel = Some p) then
        {| currentChannel := currentChannel sel; currentPeer := None |}
      else {| currentChannel := None; currentPeer := Some p |}
  end.

Inductive Click :=
| ClickChannel (channel : option string)
| ClickPeer (peer : option string).

Definition click (c : Click) (sel : Selection) : Selection :=
  match c with
  | ClickChannel channel => handleChannelSelect channel sel
  | ClickPeer peer => handlePeerSelect peer sel
  end.

Definition clicks (cs : list Click) (sel : Selection) : Selection :=
  foldl (λ sel c, click c sel) sel cs.

End ChatInterface.

(** ** ChatArea: sending, the typing line, search *)

(** The header's test: [currentChannel !== null && currentPeer === null]. *)
Definition headerIsChannel (currentPeer currentChannel : option string) : bool :=
  bool_decide (currentChannel ≠ None) && bool_decide (currentPeer = None).

(** Calls made by [handleSend] besides those of the provider. *)
Inductive AreaEffect :=
| ShowNotification (text : string)
| Provider (e : Effect)
| AreaConsoleError (text : string).

(** [handleSend]; [trim] is [String.prototype.trim], [isoNow] the timestamp
    [sendMessage] will read, [reply] what the remote end answers. *)
Definition handleSend (trim : string → string) (isoNow : string)
    (currentPeer currentChannel : option string) (reply : Reply StatusData)
    (w : ChatArea) : ChatArea * list AreaEffect :=
  if negb (truthy (trim (messageText w))) then (w, [])
  else
    let target := currentTarget currentPeer currentChannel in
    if negb (truthyOpt target) then
      (w, [ShowNotification "Select a channel or peer first!"])
    else
      let target := default "" target in
      let app1 := setTyping target false (areaApp w) in
      let '(outcome, (app2, effs)) :=
        runAsync (sendMessage isoNow (trim (messageText w)) target
                    (bool_decide (currentChannel ≠ None)) reply) app1 in
      match outcome with
      | Returned _ =>
          ({| areaApp := app2; messageText := "";
              typingTimeoutRef := typingTimeoutRef w; timers := timers w;
              nextTimerId := nextTimerId w; now := now w |},
           Provider <$> effs)
      | Thrown error =>
          ({| areaApp := app2; messageText := messageText w;
              typingTimeoutRef := typingTimeoutRef w; timers := timers w;
              nextTimerId := nextTimerId w; now := now w |},
           (Provider <$> effs)
           ++ [ShowNotification "Error sending message";
               AreaConsoleError "Error sending message:"])
      end.

(** [typingUsersList]: the names shown in the typing line.  The order of
    the names (insertion order of the JS set) is not modelled. *)
Definition typingUsersList (target : option string) (st : AppState) : list string :=
  if truthyOpt target then
    filter (λ u, Some u ≠ username <$> currentUser st)
           (elements (default ∅ (typingUsers st !! default "" target)))
  else [].

(** [String.prototype.includes]: [needle] occurs in [hay]. *)
Fixpoint includesString (needle hay : string) : bool :=
  String.prefix needle hay
  || match hay with
     | EmptyString => false
     | String _ rest => includesString needle rest
     end.

(** The predicate of the search filter; [toLowerCase] is the JS built-in. *)
Definition matchesQuery (toLowerCase : string → string) (query : string) (msg : Message)
    : bool :=
  includesString query (toLowerCase (message msg))
  || includesString query (toLowerCase (from msg)).

(** [filteredMessages] of ChatArea (the count it shows is its length). *)
Definition filteredMessages (trim toLowerCase : string → string) (searchQuery : string)
    (currentPeer currentChannel : option string) (st : AppState) : list Message :=
  let target := currentTarget currentPeer currentChannel in
  let targetMessages :=
    if truthyOpt target then default [] (messages st !! default "" target) else [] in
  if truthy (trim searchQuery) then
    List.filter (matchesQuery toLowerCase (toLowerCase searchQuery)) targetMessages
  else targetMessages.

(** [msgs] of MessageList, which ChatArea renders with
    [searchQuery={showSearch ? searchQuery : ''}]. *)
Definition messageListMsgs (trim toLowerCase : string → string) (searchQuery : string)
    (currentPeer currentChannel : option string) (st : AppState) : list Message :=
  let target := currentTarget currentPeer currentChannel in
  let msgs :=
    if truthyOpt target then default [] (messages st !! default "" target) else [] in
  if truthy (trim searchQuery) then
    let query := toLowerCase searchQuery in
    List.filter (matchesQuery toLowerCase query) msgs
  else msgs.

(** ** Sidebar: message preview *)


(** ** MessageList: relative time

    [diff] is [now.getTime() - date.getTime()] in milliseconds, [None] when
    the timestamp does not parse (NaN). *)

Inductive TimeLabel :=
| JustNow
| MinutesAgo (minutes : Z)
| HoursAgo (hours : Z)
| DaysAgo (days : Z)
| LocaleDate.

Definition formatTime (diff : option Z) : TimeLabel :=
  match diff with
  | None => LocaleDate
  | Some diff =>
      let minutes := (diff / 60000)%Z in
      let hours := (diff / 3600000)%Z in
      let days := (diff / 86400000)%Z in
      if (minutes <? 1)%Z then JustNow
      else if (minutes <? 60)%Z then MinutesAgo minutes
      else if (hours <? 24)%Z then HoursAgo hours
      else if (days <? 7)%Z then DaysAgo days
      else LocaleDate
  end.

(** ** Notions used in the further statements *)

(** Every sequence of [s] is kept, as a prefix, in [s']. *)
Definition extendsStore (s s' : gmap string (list Message)) : Prop :=
  ∀ key l, s !! key = Some l → ∃ l', s' !! key = Some l' ∧ l `prefix_of` l'.

(** The deduplication key of a message. *)
Definition messageKey (m : Message) : string * string * string :=
  (from m, message m, time m).

(** No two entries of a sequence share their key. *)
Definition distinctKeys (s : gmap string (list Message)) : Prop :=
  ∀ key l, s !! key = Some l → NoDup (messageKey <$> l).

(** Every read cursor is within its conversation. *)
Definition cursorInv (st : AppState) : Prop :=
  ∀ key c, lastReadPositions st !! key = Some c →
           (c ≤ length (default [] (messages st !! key)))%nat.

(** The state [leaveChannel] installs when the tracker accepts. *)
Definition leftState (channelName : string) (st : AppState) : AppState :=
  withLastReadPositions (λ prev, delete channelName prev)
    (withMessages (λ prev, delete channelName prev)
       (withChannels (λ prev, filter (λ c, c ≠ channelName) prev) st)).

(** The state [joinChannel] installs for a channel that was not listed. *)
Definition joinedNewState (channelName : string) (st : AppState) : AppState :=
  withLastReadPositions (λ prev, <[channelName := 0%nat]> prev)
    (withMessages (λ prev, <[channelName := []]> prev)
       (withChannels (λ prev, prev ++ [channelName]) st)).

(** The identity [registerPeer] installs. *)
Definition registeredUser (peerInfo : User) : User :=
  {| username := username peerInfo; trackerIp := trackerIp peerInfo;
     trackerPort := trackerPort peerInfo; peerPort := peerPort peerInfo;
     webpeerIp := webpeerIp peerInfo; webpeerPort := webpeerPort peerInfo;
     token := "" |}.

(** Both services accepted the registration. *)
Definition registrationAccepted (webpeerReply : Reply StatusData)
    (trackerReply : HttpReply unit) : Prop :=
  (∃ data, webpeerReply = Resolved data ∧ status data = "success")
  ∧ (∀ error, trackerReply ≠ HttpRejected error)
  ∧ (∀ code, trackerReply ≠ HttpNotOk code).

(** * Properties *)

(** ** findIndex and filter *)

Lemma findIndexFrom_lower {A} (p : A → bool) (l : list A) (i : Z) :
  (0 ≤ i)%Z → findIndexFrom p i l = (-1)%Z ∨ (i ≤ findIndexFrom p i l)%Z.
Proof.
  revert i. induction l as [|x l IH]; intros i Hi; simpl.
  - by left.
  - destruct (p x); [right; lia|].
    destruct (IH (i + 1)%Z) as [->| ?]; [lia | by left | right; lia].
Qed.

Lemma findIndexFrom_missing {A} (p : A → bool) (l : list A) (i : Z) :
  (0 ≤ i)%Z → (findIndexFrom p i l =? -1)%Z = negb (existsb p l).
Proof.
  revert i. induction l as [|x l IH]; intros i Hi; simpl; [done|].
  destruct (p x); simpl.
  - apply Z.eqb_neq. lia.
  - apply IH. lia.
Qed.

Lemma findIndex_missing {A} (p : A → bool) (l : list A) :
  (findIndex p l =? -1)%Z = negb (existsb p l).
Proof. by apply findIndexFrom_missing. Qed.

Lemma sameMessage_stored u msg : sameMessage msg (storedMessage u msg) = true.
Proof.
  unfold sameMessage; simpl.
  by rewrite !bool_decide_eq_true_2.
Qed.

Lemma alreadyStored_app msg l1 l2 :
  alreadyStored msg (l1 ++ l2) = alreadyStored msg l1 || alreadyStored msg l2.
Proof. apply existsb_app. Qed.

(** ** One merge step *)

Lemma mergeRecord_store u hidden msg s effs :
  (mergeRecord u hidden msg (s, effs)).1 =
  match resolveTarget u msg with
  | None => s
  | Some t =>
      if truthy t then
        if alreadyStored msg (default [] (s !! t)) then s
        else <[t := default [] (s !! t) ++ [storedMessage u msg]]> s
      else s
  end.
Proof.
  unfold mergeRecord.
  destruct (resolveTarget u msg) as [t|]; [|done].
  destruct (truthy t); simpl; [|done].
  destruct (s !! t) as [l|] eqn:Hl; simpl.
  - rewrite Hl; simpl. rewrite findIndex_missing.
    unfold alreadyStored. by destruct (existsb _ l).
  - rewrite lookup_insert_eq; simpl.
    by rewrite insert_insert_eq.
Qed.

Lemma mergeRecord_fst u hidden msg acc :
  (mergeRecord u hidden msg acc).1 = mergeStore u msg acc.1.
Proof.
  destruct acc as [s effs]. unfold mergeStore.
  by rewrite !mergeRecord_store.
Qed.

Lemma mergeStore_unfold u msg s :
  mergeStore u msg s =
  match resolveTarget u msg with
  | None => s
  | Some t =>
      if truthy t then
        if alreadyStored msg (default [] (s !! t)) then s
        else <[t := default [] (s !! t) ++ [storedMessage u msg]]> s
      else s
  end.
Proof. apply mergeRecord_store. Qed.

Lemma pollUpdater_fold u hidden b acc :
  (foldl (λ acc msg, mergeRecord u hidden msg acc) acc b).1 =
  foldl (λ s msg, mergeStore u msg s) acc.1 b.
Proof.
  revert acc. induction b as [|msg b IH]; intros acc; simpl; [done|].
  by rewrite IH, mergeRecord_fst.
Qed.

Lemma pollUpdater_store u hidden b s :
  (pollUpdater u hidden b s).1 = foldl (λ s msg, mergeStore u msg s) s b.
Proof. unfold pollUpdater. by rewrite pollUpdater_fold. Qed.

(** ** Settled records *)

Lemma settled_fixed u msg s : settled u msg s → mergeStore u msg s = s.
Proof.
  unfold settled. rewrite mergeStore_unfold.
  destruct (resolveTarget u msg) as [t|]; [|done].
  intros [-> | ->]; [done|]. by destruct (truthy t).
Qed.

Lemma settled_after u msg s : settled u msg (mergeStore u msg s).
Proof.
  unfold settled. rewrite mergeStore_unfold.
  destruct (resolveTarget u msg) as [t|]; [|done].
  destruct (truthy t); [|by left]. right.
  destruct (alreadyStored msg (default [] (s !! t))) eqn:Hs; [done|].
  rewrite lookup_insert_eq; simpl.
  rewrite alreadyStored_app; simpl.
  rewrite sameMessage_stored. by rewrite orb_true_r.
Qed.

Lemma settled_mono u msg msg' s : settled u msg s → settled u msg (mergeStore u msg' s).
Proof.
  unfold settled.
  destruct (resolveTarget u msg) as [t|]; [|done].
  intros [Ht | Hs]; [by left | right].
  rewrite mergeStore_unfold.
  destruct (resolveTarget u msg') as [t'|]; [|done].
  destruct (truthy t'); [|done].
  destruct (alreadyStored msg' (default [] (s !! t'))); [done|].
  destruct (decide (t' = t)) as [->|Hne].
  - rewrite lookup_insert_eq; simpl.
    rewrite alreadyStored_app, Hs. done.
  - by rewrite lookup_insert_ne.
Qed.

Lemma settled_fold u msg b s :
  settled u msg s → settled u msg (foldl (λ s m, mergeStore u m s) s b).
Proof.
  revert s. induction b as [|m b IH]; intros s Hs; simpl; [done|].
  apply IH. by apply settled_mono.
Qed.

Lemma all_settled_after u b s :
  Forall (λ msg, settled u msg (foldl (λ s m, mergeStore u m s) s b)) b.
Proof.
  revert s. induction b as [|m b IH]; intros s; simpl; constructor.
  - apply settled_fold, settled_after.
  - apply IH.
Qed.

Lemma all_settled_fixed u b s :
  Forall (λ msg, settled u msg s) b → foldl (λ s m, mergeStore u m s) s b = s.
Proof.
  induction 1 as [|m b Hm Hb IH]; simpl; [done|].
  by rewrite (settled_fixed _ _ _ Hm).
Qed.

Lemma settled_step u hidden msg s effs :
  settled u msg s →
  ∃ issued, mergeRecord u hidden msg (s, effs) = (s, effs ++ issued)
            ∧ Forall (λ e, isNotification e = false) issued.
Proof.
  unfold settled, mergeRecord.
  destruct (resolveTarget u msg) as [t|].
  - intros [Ht | Hs].
    + rewrite Ht; simpl. eexists; split; [done|]. by repeat constructor.
    + destruct (truthy t); simpl.
      * destruct (s !! t) as [l|] eqn:Hl; simpl in *; [|done].
        rewrite Hl; simpl. rewrite findIndex_missing.
        unfold alreadyStored in Hs. rewrite Hs; simpl.
        exists []. by rewrite app_nil_r.
      * eexists; split; [done|]. by repeat constructor.
  - intros _. exists []. by rewrite app_nil_r.
Qed.

Lemma all_settled_effects u hidden b s effs :
  Forall (λ msg, settled u msg s) b →
  ∃ issued, foldl (λ acc msg, mergeRecord u hidden msg acc) (s, effs) b = (s, effs ++ issued)
            ∧ Forall (λ e, isNotification e = false) issued.
Proof.
  intros Hb. revert effs. induction Hb as [|m b Hm Hb IH]; intros effs; cbn [foldl].
  - exists []. by rewrite app_nil_r.
  - destruct (settled_step u hidden m s effs Hm) as (i1 & -> & H1).
    destruct (IH (effs ++ i1)) as (i2 & -> & H2).
    exists (i1 ++ i2). rewrite app_assoc. split; [done|].
    by apply Forall_app.
Qed.

(** ** The merge of a fetched batch *)

(** C1. Merging the same batch a second time changes no conversation: the
    store after two merges equals the store after one, key by key, and the
    second merge dispatches no notification (every record of the batch is
    either skipped again or found by its (sender, body, timestamp) key). *)
Theorem merge_idempotent (u : User) (hidden1 hidden2 : bool) (batch : list Message)
    (s : gmap string (list Message)) :
  let once := (pollUpdater u hidden1 batch s).1 in
  let twice := pollUpdater u hidden2 batch once in
  twice.1 = once
  ∧ (∀ key : string, twice.1 !! key = once !! key)
  ∧ Forall (λ e, isNotification e = false) twice.2.
Proof.
  intros once twice.
  assert (Hset : Forall (λ msg, settled u msg once) batch).
  { unfold once. rewrite pollUpdater_store. apply all_settled_after. }
  destruct (all_settled_effects u hidden2 batch once [] Hset) as (issued & Heq & Hn).
  unfold twice, pollUpdater. rewrite Heq; simpl.
  repeat split; done.
Qed.

(** C3. A record whose channel tag is absent (or empty) or equal to 'direct'
    and whose sender is the local user leaves the accumulator of the merge as
    it is: nothing is appended to any conversation and no effect is issued;
    a batch merges as if the record were not in it. *)
Theorem self_direct_record_skipped (u : User) (hidden : bool) (msg : Message)
    (Htag : channel msg = None ∨ channel msg = Some "" ∨ channel msg = Some "direct")
    (Hself : from msg = username u) :
  (∀ acc, mergeRecord u hidden msg acc = acc)
  ∧ (∀ before after s,
       pollUpdater u hidden (before ++ msg :: after) s
       = pollUpdater u hidden (before ++ after) s).
Proof.
  assert (Hskip : ∀ acc, mergeRecord u hidden msg acc = acc).
  { intros [s effs]. unfold mergeRecord, resolveTarget, isDirect.
    rewrite (bool_decide_eq_true_2 _ Hself).
    by destruct Htag as [-> | [-> | ->]]. }
  split; [done|].
  intros before after s. unfold pollUpdater.
  rewrite !foldl_app; simpl. by rewrite Hskip.
Qed.

Lemma self_direct_record_skipped_witness :
  let alice := mkUser "alice" "127.0.0.1" 8000 9001 "127.0.0.1" 9002 "" in
  let msg := mkMessage "alice" "hi" "2025-01-01T00:00:00.000Z" (Some "direct") None None in
  pollUpdater alice true [msg] {[ "bob" := [] ]} = ({[ "bob" := [] ]}, []).
Proof.
  intros alice msg.
  pose proof (self_direct_record_skipped alice true msg
                (or_intror (or_intror eq_refl)) eq_refl) as [_ H].
  exact (H [] [] {[ "bob" := [] ]}).
Defined.

(** C7. A record carrying a channel tag (a non-empty tag other than
    'direct') is filed under that tag only: the tag's sequence is unchanged
    or extended by exactly the stored copy of the record, every other key
    keeps its sequence, and so does the sender's key. *)
Theorem channel_record_frame (u : User) (hidden : bool) (msg : Message) (tag : string)
    (s : gmap string (list Message)) (effs : list Effect)
    (Htag : channel msg = Some tag) (Hne : tag ≠ "") (Hch : tag ≠ "direct") :
  let s' := (mergeRecord u hidden msg (s, effs)).1 in
  (s' = s ∨ s' !! tag = Some (default [] (s !! tag) ++ [storedMessage u msg]))
  ∧ (length (default [] (s' !! tag)) ≤ S (length (default [] (s !! tag))))%nat
  ∧ (∀ key, key ≠ tag → s' !! key = s !! key)
  ∧ (from msg ≠ tag → s' !! from msg = s !! from msg).
Proof.
  intros s'.
  assert (Hs' : s' = s ∨ s' = <[tag := default [] (s !! tag) ++ [storedMessage u msg]]> s).
  { unfold s'. rewrite mergeRecord_store.
    unfold resolveTarget, isDirect, truthyOpt, truthy. rewrite Htag; simpl.
    destruct (bool_decide (Some tag = Some "direct")) eqn:E1;
      [apply bool_decide_eq_true_1 in E1; congruence|].
    destruct (bool_decide (tag = "")) eqn:E2;
      [by apply bool_decide_eq_true_1 in E2|]. simpl. rewrite ?E2. simpl.
    destruct (alreadyStored _ _); auto. }
  assert (Hframe : ∀ key, key ≠ tag → s' !! key = s !! key).
  { intros key Hk. destruct Hs' as [-> | ->]; [done|]. by rewrite lookup_insert_ne. }
  repeat split.
  - destruct Hs' as [-> | ->]; [by left | right]. by rewrite lookup_insert_eq.
  - destruct Hs' as [-> | ->]; [lia|].
    rewrite lookup_insert_eq; simpl. rewrite length_app; simpl. lia.
  - done.
  - intros Hfrom. by apply Hframe.
Qed.

Lemma channel_record_frame_witness :
  let bob := mkUser "bob" "127.0.0.1" 8000 9001 "127.0.0.1" 9002 "" in
  let msg := mkMessage "carol" "yo" "2025-01-01T00:00:00.000Z" (Some "general") None None in
  let s : gmap string (list Message) := {[ "carol" := [] ]} in
  let s' := (mergeRecord bob false msg (s, [])).1 in
  s' !! "general" = Some [storedMessage bob msg] ∧ s' !! "carol" = Some [].
Proof.
  intros bob msg s s'.
  assert (Ht : "general" ≠ "") by discriminate.
  assert (Hd : "general" ≠ "direct") by discriminate.
  destruct (channel_record_frame bob false msg "general" s [] eq_refl Ht Hd)
    as (Hgrow & _ & _ & Hsender).
  split.
  - destruct Hgrow as [Hsame | Hnew]; [|exact Hnew].
    exfalso. vm_compute in Hsame. discriminate Hsame.
  - assert (Hf : from msg ≠ "general") by discriminate.
    transitivity (s !! from msg); [exact (Hsender Hf) | vm_compute; reflexivity].
Defined.

(** ** Unread counts *)

Lemma filterIndexFrom_cursor {A} (q : A → bool) (cursor i : nat) (l : list A) :
  length (filterIndexFrom (λ x index, q x && bool_decide (cursor ≤ index)%nat) i l)
  = length (filter (λ x, q x = true) (drop (cursor - i) l)).
Proof.
  revert i. induction l as [|x l IH]; intros i.
  - by rewrite drop_nil.
  - cbn [filterIndexFrom]. destruct (decide (cursor ≤ i)%nat) as [Hle|Hgt].
    + replace (cursor - i)%nat with 0%nat by lia. rewrite drop_0, filter_cons.
      rewrite (bool_decide_eq_true_2 _ Hle), andb_true_r.
      specialize (IH (S i)). replace (cursor - S i)%nat with 0%nat in IH by lia.
      rewrite drop_0 in IH.
      destruct (q x); simpl; by rewrite IH.
    + rewrite (bool_decide_eq_false_2 _ Hgt), andb_false_r.
      rewrite IH. replace (cursor - i)%nat with (S (cursor - S i)) by lia.
      done.
Qed.

Lemma unreadOf_derived (st : AppState) (key : string) :
  unreadOf st key
  = length (filter (λ m, negb (isSent (currentUser st) m) = true)
              (drop (default 0%nat (lastReadPositions st !! key))
                    (default [] (messages st !! key)))).
Proof.
  unfold unreadOf, unreadCounts. rewrite map_lookup_imap.
  destruct (messages st !! key) as [l|]; simpl.
  - unfold filterIndex. rewrite filterIndexFrom_cursor.
    by rewrite Nat.sub_0_r.
  - by rewrite drop_nil.
Qed.

(** When every message flagged [sent] was sent by the local user, the
    count is the one the specification words. *)
Lemma unreadOf_spec_when_flags_agree (st : AppState) (key : string) :
  (∀ m, m ∈ default [] (messages st !! key) →
        sent m = Some true → Some (from m) = username <$> currentUser st) →
  unreadOf st key = specUnread st key.
Proof.
  intros Hflags. rewrite unreadOf_derived. unfold specUnread.
  set (cursor := default 0%nat (lastReadPositions st !! key)).
  assert (Hsub : ∀ m, m ∈ drop cursor (default [] (messages st !! key)) →
                      m ∈ default [] (messages st !! key)).
  { intros m Hm. rewrite <- (take_drop cursor (default [] (messages st !! key))).
    apply elem_of_app. by right. }
  revert Hsub. generalize (drop cursor (default [] (messages st !! key))) as l.
  induction l as [|m l IH]; intros Hl; [done|].
  rewrite !filter_cons.
  assert (Hiff : negb (isSent (currentUser st) m) = true
                 ↔ Some (from m) ≠ username <$> currentUser st).
  { unfold isSent. split.
    - intros Hn Heq. apply negb_true_iff, orb_false_iff in Hn as [Hn _].
      destruct (currentUser st) as [u|]; simpl in *; [|done].
      apply bool_decide_eq_false_1 in Hn. congruence.
    - intros Hne. apply negb_true_iff, orb_false_iff. split.
      + destruct (currentUser st) as [u|]; simpl in *; [|done].
        apply bool_decide_eq_false_2. congruence.
      + destruct (sent m) as [[|]|] eqn:Hs; simpl; try done.
        exfalso. apply Hne, Hflags; [|done]. apply Hl. by left. }
  assert (IH' : length (filter (λ m, negb (isSent (currentUser st) m) = true) l)
                = length (filter (λ m, Some (from m) ≠ username <$> currentUser st) l)).
  { apply IH. intros m' Hm'. apply Hl. by right. }
  destruct (decide (negb (isSent (currentUser st) m) = true)) as [Hy|Hn].
  - rewrite decide_True by by apply Hiff. simpl. by rewrite IH'.
  - rewrite decide_False by (intros ?; by apply Hn, Hiff). done.
Qed.

(** C4 (as amended). The unread count shown for a key is derived from the
    conversation's sequence, its read cursor and the identity: it is the
    number of messages at index >= cursor that are neither sent by the local
    user nor flagged [sent]; and right after [markAsRead key] it is 0. *)
Theorem unread_count_derived (st : AppState) (key : string) :
  unreadOf st key
  = length (filter (λ m, negb (isSent (currentUser st) m) = true)
              (drop (default 0%nat (lastReadPositions st !! key))
                    (default [] (messages st !! key))))
  ∧ lastReadPositions (markAsRead key st) !! key
    = Some (length (default [] (messages st !! key)))
  ∧ unreadOf (markAsRead key st) key = 0%nat.
Proof.
  split; [apply unreadOf_derived|]. split.
  - unfold markAsRead; simpl. by rewrite lookup_insert_eq.
  - rewrite unreadOf_derived. unfold markAsRead; simpl.
    rewrite lookup_insert_eq; simpl. by rewrite drop_all.
Qed.

(** C4 (as stated) fails: the code counts 0 unread messages in "general",
    the formula [count(messages[cursor:] where sender != localIdentity)]
    counts 1. *)
Lemma unread_count_formula_counterexample :
  unreadOf takenOverState "general" = 0%nat
  ∧ specUnread takenOverState "general" = 1%nat
  ∧ unreadOf takenOverState "general" ≠ specUnread takenOverState "general".
Proof. vm_compute. repeat split; discriminate. Qed.

(** The state above arises from the empty one by the events of the
    synchronisation loop. *)
Example takenOverState_reachable :
  let alice := mkUser "alice" "127.0.0.1" 8000 9001 "127.0.0.1" 9002 "" in
  let bob := mkUser "bob" "127.0.0.1" 8000 9001 "127.0.0.1" 9002 "" in
  let record := mkMessage "alice" "hello" "2025-01-01T00:00:00.000Z" (Some "general")
                          None None in
  app (run [EvRegister alice; EvTick; EvLogout; EvRegister bob;
            EvSettle 0 false (Resolved (mkPollData "success" (Some [record])))]
           initialWorld)
  = takenOverState.
Proof. vm_compute. reflexivity. Qed.

(** ** A failed polling cycle *)

#[local] Arguments bool_decide : simpl never.

(** Unfolds a callback down to the plumbing of [Async] and evaluates it. *)
Ltac run_async :=
  unfold runAsync, pollCallback, sendMessage, joinChannel;
  unfold tryCatch, fetchJson, setMessages, setMessagesWith, emit, emitAll,
    getState, update, throw;
  unfold mbind, mret, Async_bind, Async_ret; cbn.

(** C5. When the fetch of a cycle is rejected (network error, unreadable
    body) or answers with a status other than "success", the callback returns
    without throwing, the whole state is what it was (store, read positions,
    hence unread counts), and no sound or notification is dispatched. *)
Theorem failed_poll_noop (u : User) (hidden : bool) (reply : Reply PollData)
    (st : AppState)
    (Hfail : (∃ error, reply = Rejected error)
             ∨ (∃ data, reply = Resolved data ∧ pollStatus data ≠ "success")) :
  let r := runAsync (pollCallback u hidden reply) st in
  r.1 = Returned ()
  ∧ r.2.1 = st
  ∧ messages r.2.1 = messages st
  ∧ lastReadPositions r.2.1 = lastReadPositions st
  ∧ unreadCounts r.2.1 = unreadCounts st
  ∧ Forall (λ e, isNotification e = false) r.2.2.
Proof.
  destruct Hfail as [[error ->] | (data & -> & Hst)].
  - run_async. repeat split; try done. by repeat constructor.
  - run_async. rewrite (bool_decide_eq_false_2 _ Hst). cbn.
    repeat split; try done. by repeat constructor.
Qed.

Lemma failed_poll_noop_witness :
  let bob := mkUser "bob" "127.0.0.1" 8000 9001 "127.0.0.1" 9002 "" in
  let record := mkMessage "carol" "yo" "2025-01-01T00:00:00.000Z" None None None in
  let reply := Resolved (mkPollData "error" (Some [record])) in
  let st := withCurrentUser (Some bob) initialState in
  (runAsync (pollCallback bob true reply) st).2.1 = st.
Proof.
  intros bob record reply st.
  refine (proj1 (proj2 (failed_poll_noop bob true reply st _))).
  right. exists (mkPollData "error" (Some [record])). split; [reflexivity | discriminate].
Defined.

(** ** Optimistic send *)

(** C6. With an identity present, [sendMessage] first appends
    [{from: username, message: text, sent: true}] to the target's sequence
    and only then issues the remote call; nothing later touches the store,
    so the copy is there whatever the remote end answers; when the call is
    rejected the error is logged and thrown again to the caller. *)
Theorem optimistic_send (st : AppState) (u : User) (now text target : string)
    (isChannel : bool) (reply : Reply StatusData)
    (Hu : currentUser st = Some u) :
  let r := runAsync (sendMessage now text target isChannel reply) st in
  let appended := default [] (messages st !! target) ++ [sentMessage u text now] in
  (from (sentMessage u text now) = username u
   ∧ message (sentMessage u text now) = text
   ∧ sent (sentMessage u text now) = Some true)
  ∧ messages r.2.1 = <[target := appended]> (messages st)
  ∧ messages r.2.1 !! target = Some appended
  ∧ (∃ path rest,
       r.2.2 = SetMessages (<[target := appended]> (messages st))
               :: Fetch (webpeerIp u) (webpeerPort u) path :: rest)
  ∧ (∀ error, reply = Rejected error →
       r.1 = Thrown error ∧ ConsoleError "Error sending message:" ∈ r.2.2).
Proof.
  intros r appended.
  assert (Hstore : messages r.2.1 = <[target := appended]> (messages st)).
  { unfold r. run_async. rewrite Hu.
    destruct isChannel, reply as [error|data]; cbn; try done;
      destruct (bool_decide (status data = "success")); done. }
  split; [done|]. split; [done|]. split.
  { rewrite Hstore. apply lookup_insert_eq. }
  split.
  - unfold r. run_async. rewrite Hu.
    destruct isChannel, reply as [error|data]; cbn; eauto;
      destruct (bool_decide (status data = "success")); cbn; eauto.
  - intros error ->. unfold r. run_async. rewrite Hu.
    destruct isChannel; cbn; (split; [done|]);
      rewrite !elem_of_cons; auto.
Qed.

Lemma optimistic_send_witness :
  let alice := mkUser "alice" "127.0.0.1" 8000 9001 "127.0.0.1" 9002 "" in
  let st := withCurrentUser (Some alice) initialState in
  let r := runAsync (sendMessage "2025-01-01T00:00:00.000Z" "hi" "bob" false
                       (Rejected "TypeError: Failed to fetch")) st in
  messages r.2.1 !! "bob"
  = Some [mkMessage "alice" "hi" "2025-01-01T00:00:00.000Z" None (Some true) (Some ∅)]
  ∧ r.1 = Thrown "TypeError: Failed to fetch".
Proof.
  intros alice st r.
  destruct (optimistic_send st alice "2025-01-01T00:00:00.000Z" "hi" "bob" false
              (Rejected "TypeError: Failed to fetch") eq_refl)
    as (_ & _ & Hcopy & _ & Hthrow).
  split.
  - exact Hcopy.
  - exact (proj1 (Hthrow _ eq_refl)).
Defined.

(** A reply with a status other than "success" is only logged: the call
    returns normally and the appended copy stays. *)
Lemma sendMessage_non_success_logged (st : AppState) (u : User)
    (now text target : string) (isChannel : bool) (data : StatusData) :
  currentUser st = Some u → status data ≠ "success" →
  let r := runAsync (sendMessage now text target isChannel (Resolved data)) st in
  r.1 = Returned ()
  ∧ ∃ text, last r.2.2 = Some (ConsoleError text).
Proof.
  intros Hu Hst. run_async. rewrite Hu. cbn.
  destruct isChannel; cbn; rewrite (bool_decide_eq_false_2 _ Hst); cbn; eauto.
Qed.

(** ** The scenarios of the specification *)

Example scenario_basic_exchange :
  let alice := mkUser "alice" "127.0.0.1" 8000 9001 "127.0.0.1" 9002 "" in
  let st0 := withCurrentUser (Some alice) initialState in
  let st1 := (runAsync (sendMessage "T0" "hi" "bob" false
                          (Resolved (mkStatusData "success" ""))) st0).2.1 in
  let hey := mkMessage "bob" "hey" "T1" None None None in
  let st2 := (runAsync (pollCallback alice false
                          (Resolved (mkPollData "success" (Some [hey])))) st1).2.1 in
  messages st1 !! "bob" = Some [mkMessage "alice" "hi" "T0" None (Some true) (Some ∅)]
  ∧ length (default [] (messages st2 !! "bob")) = 2%nat
  ∧ unreadOf st2 "bob" = 1%nat
  ∧ unreadOf (markAsRead "bob" st2) "bob" = 0%nat.
Proof. vm_compute. repeat split; reflexivity. Qed.

Example scenario_duplicate_poll :
  let alice := mkUser "alice" "127.0.0.1" 8000 9001 "127.0.0.1" 9002 "" in
  let hey := mkMessage "bob" "hey" "T1" None None None in
  let reply := Resolved (mkPollData "success" (Some [hey])) in
  let st0 := withCurrentUser (Some alice) initialState in
  let st1 := (runAsync (pollCallback alice false reply) st0).2.1 in
  let st2 := (runAsync (pollCallback alice false reply) st1).2.1 in
  messages st2 !! "bob" = Some [mkMessage "bob" "hey" "T1" None (Some false) (Some ∅)].
Proof. vm_compute. reflexivity. Qed.

Example scenario_channel_broadcast :
  let alice := mkUser "alice" "127.0.0.1" 8000 9001 "127.0.0.1" 9002 "" in
  let yo := mkMessage "carol" "yo" "T1" (Some "general") None None in
  let st0 := withCurrentUser (Some alice) initialState in
  let r := runAsync (pollCallback alice true
                       (Resolved (mkPollData "success" (Some [yo])))) st0 in
  messages r.2.1 !! "general"
    = Some [mkMessage "carol" "yo" "T1" (Some "general") (Some false) (Some ∅)]
  ∧ messages r.2.1 !! "carol" = None
  ∧ filter (λ e, isNotification e = true) r.2.2
    = [PlayNotificationSound; ShowBrowserNotification "#general" "yo"].
Proof. vm_compute. repeat split; reflexivity. Qed.

(** ** Typing registry *)

Lemma setTypingUpdater_other cu target isTyping (prev : gmap string (gset string)) key :
  key ≠ target → setTypingUpdater cu target isTyping prev !! key = prev !! key.
Proof.
  intros Hne. unfold setTypingUpdater.
  cbn zeta. repeat case_match;
    rewrite ?lookup_delete_ne, ?lookup_insert_ne by done; done.
Qed.

Lemma setTypingUpdater_target cu target (isTyping : bool) (prev : gmap string (gset string)) :
  let old := default ∅ (prev !! target) in
  let updated :=
    if isTyping then old ∪ {[typingName cu]} else old ∖ {[typingName cu]} in
  setTypingUpdater cu target isTyping prev !! target
  = if (size updated =? 0)%nat then None else Some updated.
Proof.
  intros old updated. unfold setTypingUpdater.
  assert (Hold : default ∅
            (match prev !! target with
             | None => <[target := ∅]> prev
             | Some _ => prev
             end !! target) = old).
  { unfold old. destruct (prev !! target) eqn:Ht; [by rewrite Ht|].
    by rewrite lookup_insert_eq. }
  cbn zeta. rewrite Hold. fold updated.
  destruct (size updated =? 0)%nat.
  - by rewrite lookup_delete_eq.
  - by rewrite lookup_insert_eq.
Qed.

Lemma setTypingUpdater_inv cu target isTyping prev :
  typingInv prev → typingInv (setTypingUpdater cu target isTyping prev).
Proof.
  intros Hinv key s. destruct (decide (key = target)) as [->|Hne].
  - rewrite setTypingUpdater_target.
    cbn zeta. case_match eqn:Hsz; [done|].
    intros [= <-] Hempty. apply Nat.eqb_neq in Hsz. apply Hsz.
    rewrite Hempty. apply size_empty.
  - rewrite setTypingUpdater_other by done. apply Hinv.
Qed.

Lemma setTypingUpdater_absent_false cu target (prev : gmap string (gset string)) :
  prev !! target = None → setTypingUpdater cu target false prev = prev.
Proof.
  intros Habs. apply map_eq. intros key.
  destruct (decide (key = target)) as [->|Hne].
  - rewrite setTypingUpdater_target. cbn zeta. rewrite Habs. cbn [default].
    assert (Hdiff : (∅ ∖ {[typingName cu]} : gset string) = ∅)
      by apply subseteq_empty_difference_L, empty_subseteq.
    by rewrite Hdiff, size_empty.
  - by apply setTypingUpdater_other.
Qed.

Lemma typingAfter_inv calls : typingInv (typingAfter calls).
Proof.
  unfold typingAfter.
  assert (Hgen : ∀ reg, typingInv reg →
            typingInv (foldl (λ reg '(cu, target, isTyping),
                                setTypingUpdater cu target isTyping reg) reg calls)).
  { induction calls as [|[[cu target] isTyping] calls IH]; intros reg Hreg; simpl; [done|].
    by apply IH, setTypingUpdater_inv. }
  apply Hgen. intros k s. by rewrite lookup_empty.
Qed.

(** C8. The typing registry never holds a key with an empty set: each
    [setTyping] call preserves the property, whatever the target and the
    flag; a call with [isTyping = false] on an absent key leaves the registry
    as it was; the property holds of the initial registry, of the one
    [logout] installs, and of every registry reached from the empty one by
    [setTyping] calls. *)
Theorem typing_registry_no_empty_set (st : AppState) (target : string)
    (isTyping : bool) (Hinv : typingInv (typingUsers st)) :
  typingInv (typingUsers (setTyping target isTyping st))
  ∧ (typingUsers st !! target = None →
       typingUsers (setTyping target false st) = typingUsers st)
  ∧ typingInv (typingUsers initialState)
  ∧ typingInv (typingUsers (logout st))
  ∧ (∀ calls, typingInv (typingAfter calls)).
Proof.
  split; [by apply setTypingUpdater_inv|].
  split; [apply setTypingUpdater_absent_false|].
  split; [intros k s; simpl; by rewrite lookup_empty|].
  split; [intros k s; simpl; by rewrite lookup_empty|].
  apply typingAfter_inv.
Qed.

Lemma typing_registry_no_empty_set_witness :
  let alice := mkUser "alice" "127.0.0.1" 8000 9001 "127.0.0.1" 9002 "" in
  let st := withTypingUsers (λ _, {[ "bob" := {[ "alice" ]} ]})
              (withCurrentUser (Some alice) initialState) in
  typingInv (typingUsers st)
  ∧ typingInv (typingUsers (setTyping "bob" false st))
  ∧ typingUsers (setTyping "general" false st) = typingUsers st.
Proof.
  intros alice st.
  assert (Hst : typingInv (typingUsers st)).
  { intros k s Hk. simpl in Hk.
    apply lookup_singleton_Some in Hk as [_ <-].
    intros Hempty. apply (not_elem_of_empty (C := gset string) "alice").
    rewrite <- Hempty. by apply elem_of_singleton. }
  split; [exact Hst|].
  split.
  - exact (proj1 (typing_registry_no_empty_set st "bob" false Hst)).
  - apply (proj1 (proj2 (typing_registry_no_empty_set st "general" false Hst))).
    reflexivity.
Defined.

(** ** Typing auto-expiry *)

Lemma fire_not_typing t st :
  ¬ isTypingIn (typingName (timerUser t)) (timerTarget t) (fire t st).
Proof.
  intros (s & Hs & Hin). unfold fire in Hs; simpl in Hs.
  rewrite setTypingUpdater_target in Hs. cbn zeta in Hs.
  case_match; [done|]. injection Hs as <-.
  apply elem_of_difference in Hin as [_ Hn]. apply Hn. by apply elem_of_singleton.
Qed.

Lemma fire_mono name target t st :
  isTypingIn name target (fire t st) → isTypingIn name target st.
Proof.
  intros (s & Hs & Hin). unfold fire in Hs; simpl in Hs.
  destruct (decide (target = timerTarget t)) as [->|Hne].
  - rewrite setTypingUpdater_target in Hs. cbn zeta in Hs.
    case_match; [done|]. injection Hs as <-.
    apply elem_of_difference in Hin as [Hin _].
    destruct (typingUsers st !! timerTarget t) as [old|] eqn:Hold; simpl in Hin.
    + by exists old.
    + by apply not_elem_of_empty in Hin.
  - rewrite setTypingUpdater_other in Hs by done. by exists s.
Qed.

Lemma fold_fire_mono name target l st :
  isTypingIn name target (foldl (λ st t, fire t st) st l) → isTypingIn name target st.
Proof.
  revert st. induction l as [|t l IH]; intros st; simpl; [done|].
  intros H. by apply (fire_mono name target t), IH.
Qed.

Lemma fold_fire_removes t l st :
  t ∈ l →
  ¬ isTypingIn (typingName (timerUser t)) (timerTarget t) (foldl (λ st t, fire t st) st l).
Proof.
  revert st. induction l as [|t' l IH]; intros st Hin; [by apply elem_of_nil in Hin|].
  apply elem_of_cons in Hin as [->|Hin]; simpl.
  - intros H. apply fold_fire_mono in H. by apply fire_not_typing in H.
  - by apply IH.
Qed.

Lemma advance_S_r ms w : advance (S ms) w = tick (advance ms w).
Proof.
  revert w. induction ms as [|ms IH]; intros w; [done|].
  change (advance (S (S ms)) w) with (advance (S ms) (tick w)).
  by rewrite IH.
Qed.

Lemma now_advance ms w : now (advance ms w) = (now w + ms)%nat.
Proof.
  induction ms as [|ms IH]; [simpl; lia|].
  rewrite advance_S_r. simpl. rewrite IH. lia.
Qed.

Lemma tick_pending t w : t ∈ timers (tick w) → (now (tick w) < deadline t)%nat.
Proof.
  simpl. intros [Hdue _]%list_elem_of_filter. unfold isDue in Hdue.
  destruct (decide (deadline t ≤ S (now w))%nat) as [Hle|]; [|lia].
  exfalso. apply Hdue. by apply bool_decide_eq_true_2.
Qed.

Lemma tick_expiry_inv t w :
  t ∈ timers w ∨ ¬ isTypingIn (typingName (timerUser t)) (timerTarget t) (areaApp w) →
  t ∈ timers (tick w)
  ∨ ¬ isTypingIn (typingName (timerUser t)) (timerTarget t) (areaApp (tick w)).
Proof.
  intros [Hin | Hnot]; simpl.
  - destruct (isDue (S (now w)) t) eqn:Hdue.
    + right. apply fold_fire_removes. by apply list_elem_of_filter.
    + left. apply list_elem_of_filter. split; [congruence | done].
  - right. intros H. by apply fold_fire_mono in H.
Qed.

Lemma advance_expiry_inv t ms w :
  t ∈ timers w ∨ ¬ isTypingIn (typingName (timerUser t)) (timerTarget t) (areaApp w) →
  t ∈ timers (advance ms w)
  ∨ ¬ isTypingIn (typingName (timerUser t)) (timerTarget t) (areaApp (advance ms w)).
Proof.
  intros H. induction ms as [|ms IH]; [done|].
  rewrite advance_S_r. by apply tick_expiry_inv.
Qed.

Lemma advance_expired t ms w :
  t ∈ timers w → (0 < ms)%nat → (deadline t ≤ now w + ms)%nat →
  ¬ isTypingIn (typingName (timerUser t)) (timerTarget t) (areaApp (advance ms w)).
Proof.
  intros Hin Hpos Hdl.
  destruct (advance_expiry_inv t ms w (or_introl Hin)) as [Hstill | Hgone]; [|done].
  exfalso. destruct ms as [|ms]; [lia|].
  rewrite advance_S_r in Hstill. apply tick_pending in Hstill.
  rewrite <- advance_S_r, now_advance in Hstill. lia.
Qed.

Lemma filter_none {A} (P : A → Prop) `{!∀ x, Decision (P x)} (l : list A) :
  (∀ x, x ∈ l → ¬ P x) → filter P l = [].
Proof.
  induction l as [|x l IH]; intros Hl; [done|].
  rewrite filter_cons, decide_False by (apply Hl; by left).
  apply IH. intros y Hy. apply Hl. by right.
Qed.

Lemma filter_all {A} (P : A → Prop) `{!∀ x, Decision (P x)} (l : list A) :
  (∀ x, x ∈ l → P x) → filter P l = l.
Proof.
  induction l as [|x l IH]; intros Hl; [done|].
  rewrite filter_cons, decide_True by (apply Hl; by left).
  f_equal. apply IH. intros y Hy. apply Hl. by right.
Qed.

Lemma advance_quiet ms w :
  (∀ t, t ∈ timers w → (now w + ms < deadline t)%nat) →
  areaApp (advance ms w) = areaApp w ∧ timers (advance ms w) = timers w.
Proof.
  induction ms as [|ms IH]; intros Hq; [done|].
  rewrite advance_S_r. destruct IH as [Happ Htim].
  { intros t Ht. specialize (Hq t Ht). lia. }
  assert (Hnone : ∀ t, t ∈ timers (advance ms w) →
                       isDue (S (now (advance ms w))) t ≠ true).
  { intros t Ht Hdue. rewrite Htim in Ht. specialize (Hq t Ht).
    apply bool_decide_eq_true_1 in Hdue. rewrite now_advance in Hdue. lia. }
  simpl. split.
  - by rewrite (filter_none _ _ Hnone).
  - by rewrite (filter_all _ _ Hnone).
Qed.

Lemma handleInputChange_active value currentPeer currentChannel target w :
  currentTarget currentPeer currentChannel = Some target → target ≠ "" →
  handleInputChange value currentPeer currentChannel w
  = {| areaApp := setTyping target true (areaApp w);
       messageText := value;
       typingTimeoutRef := Some (nextTimerId w);
       timers :=
         match typingTimeoutRef w with
         | Some id => clearTimeout id (timers w)
         | None => timers w
         end
         ++ [mkTimer (nextTimerId w) (now w + typingWindow) target
                     (currentUser (areaApp w))];
       nextTimerId := S (nextTimerId w);
       now := now w |}.
Proof.
  intros Htarget Hne. unfold handleInputChange. rewrite Htarget.
  unfold truthyOpt, truthy. by rewrite (bool_decide_eq_false_2 _ Hne).
Qed.

Lemma setTyping_true_registers target st :
  isTypingIn (typingName (currentUser st)) target (setTyping target true st).
Proof.
  unfold isTypingIn, setTyping; simpl.
  rewrite setTypingUpdater_target. cbn zeta.
  set (updated := default ∅ (typingUsers st !! target) ∪ {[typingName (currentUser st)]}).
  assert (Hin : typingName (currentUser st) ∈ updated).
  { apply elem_of_union. right. by apply elem_of_singleton. }
  destruct (size updated =? 0)%nat eqn:Hsz.
  - exfalso. apply Nat.eqb_eq, size_empty_inv in Hsz.
    by apply (not_elem_of_empty (C := gset string) (typingName (currentUser st))), Hsz.
  - by exists updated.
Qed.

Lemma wfArea_cleared w :
  wfArea w →
  match typingTimeoutRef w with
  | Some id => clearTimeout id (timers w)
  | None => timers w
  end = [].
Proof.
  intros Hwf. destruct (typingTimeoutRef w) as [id|] eqn:Href.
  - unfold clearTimeout. apply filter_none. intros t Ht Hid.
    specialize (Hwf t Ht). rewrite Href in Hwf. by injection Hwf as ->.
  - destruct (timers w) as [|t ts] eqn:Hts; [done|].
    specialize (Hwf t). rewrite Href, Hts in Hwf.
    by discriminate Hwf; left.
Qed.

Lemma wfArea_tick w : wfArea w → wfArea (tick w).
Proof.
  intros Hwf t [_ Ht]%list_elem_of_filter. by apply Hwf.
Qed.

Lemma wfArea_advance ms w : wfArea w → wfArea (advance ms w).
Proof.
  intros Hwf. induction ms as [|ms IH]; [done|].
  rewrite advance_S_r. by apply wfArea_tick.
Qed.

(** C9. An input event in a conversation registers the user as typing
    there and arms a timeout of [typingWindow] = 3000 ms; once that much
    time has passed without another event the user is no longer in the
    registry for that conversation.  The event cancels the timeout the
    previous event armed: afterwards the new timeout is the only one
    pending, so the window is counted from the latest input, and until it
    has elapsed the user stays registered. *)
Theorem typing_auto_expiry (w : ChatArea) (value : string)
    (currentPeer currentChannel : option string) (target : string)
    (Htarget : currentTarget currentPeer currentChannel = Some target)
    (Hne : target ≠ "") :
  let name := typingName (currentUser (areaApp w)) in
  let w1 := handleInputChange value currentPeer currentChannel w in
  isTypingIn name target (areaApp w1)
  ∧ (∀ ms, (typingWindow ≤ ms)%nat → ¬ isTypingIn name target (areaApp (advance ms w1)))
  ∧ (wfArea w →
       wfArea w1
       ∧ timers w1 = [mkTimer (nextTimerId w) (now w + typingWindow) target
                              (currentUser (areaApp w))]
       ∧ ∀ ms, (ms < typingWindow)%nat → isTypingIn name target (areaApp (advance ms w1))).
Proof.
  intros name w1.
  set (t := mkTimer (nextTimerId w) (now w + typingWindow) target (currentUser (areaApp w))).
  assert (Hw1 : w1 = {| areaApp := setTyping target true (areaApp w);
                        messageText := value;
                        typingTimeoutRef := Some (nextTimerId w);
                        timers :=
                          match typingTimeoutRef w with
                          | Some id => clearTimeout id (timers w)
                          | None => timers w
                          end ++ [t];
                        nextTimerId := S (nextTimerId w);
                        now := now w |})
    by by apply handleInputChange_active.
  assert (Hreg : isTypingIn name target (areaApp w1)).
  { rewrite Hw1; simpl. apply setTyping_true_registers. }
  split; [done|]. split.
  - intros ms Hms.
    apply (advance_expired t ms w1).
    + rewrite Hw1; simpl. apply elem_of_app. right. by left.
    + unfold typingWindow in Hms. lia.
    + rewrite Hw1; simpl. lia.
  - intros Hwf.
    assert (Htimers : timers w1 = [t]).
    { rewrite Hw1; simpl. by rewrite (wfArea_cleared w Hwf). }
    split; [|split; [done|]].
    + intros t' Ht'. rewrite Htimers in Ht'.
      apply list_elem_of_singleton in Ht' as ->. by rewrite Hw1.
    + intros ms Hms.
      destruct (advance_quiet ms w1) as [-> _]; [|done].
      intros t' Ht'. rewrite Htimers in Ht'.
      apply list_elem_of_singleton in Ht' as ->.
      rewrite Hw1; simpl. lia.
Qed.

Lemma typing_auto_expiry_witness :
  let w1 := handleInputChange "h" (Some "bob") None aliceArea in
  let w2 := handleInputChange "he" (Some "bob") None (advance 1000 w1) in
  ¬ isTypingIn "alice" "bob" (areaApp (advance 3000 w1))
  ∧ isTypingIn "alice" "bob" (areaApp (advance 2500 w2))
  ∧ ¬ isTypingIn "alice" "bob" (areaApp (advance 3000 w2)).
Proof.
  intros w1 w2.
  assert (Hbob : "bob" ≠ "") by discriminate.
  assert (Hwf0 : wfArea aliceArea) by (intros t Ht; by apply elem_of_nil in Ht).
  destruct (typing_auto_expiry aliceArea "h" (Some "bob") None "bob" eq_refl Hbob)
    as (_ & Hexpire1 & Hreset1).
  destruct (Hreset1 Hwf0) as (Hwf1 & _ & _).
  destruct (typing_auto_expiry (advance 1000 w1) "he" (Some "bob") None "bob" eq_refl Hbob)
    as (_ & Hexpire2 & Hreset2).
  destruct (Hreset2 (wfArea_advance 1000 w1 Hwf1)) as (_ & _ & Hstill2).
  assert (Hname : typingName (currentUser (areaApp (advance 1000 w1))) = "alice")
    by (vm_compute; reflexivity).
  rewrite Hname in Hexpire2, Hstill2.
  split; [exact (Hexpire1 3000 (le_n 3000))|].
  split; [apply Hstill2; unfold typingWindow; lia | exact (Hexpire2 3000 (le_n 3000))].
Defined.

(** ** Joining a channel *)

Lemma includes_true x l : x ∈ l → includes x l = true.
Proof. intros H. unfold includes. by apply bool_decide_eq_true_2. Qed.

Lemma includes_false x l : x ∉ l → includes x l = false.
Proof. intros H. unfold includes. by apply bool_decide_eq_false_2. Qed.

(** [joinChannel] does return when the tracker answers "success" and the
    WebPeer call is not rejected. *)
Lemma joinChannel_returns (st : AppState) (u : User) (channelName : string)
    (trackerData webpeerData : StatusData) :
  currentUser st = Some u → status trackerData = "success" →
  (runAsync (joinChannel channelName (Resolved trackerData) (Resolved webpeerData)) st).1
  = Returned ().
Proof.
  intros Hu Hst. run_async. rewrite Hu. cbn.
  rewrite (bool_decide_eq_true_2 _ Hst). cbn.
  destruct (bool_decide (status webpeerData = "success")); cbn;
    destruct (includes channelName (channels st)); done.
Qed.

(** A first join creates the channel's entries: empty sequence, cursor 0. *)
Lemma joinChannel_new_resets (st st' : AppState) (channelName : string)
    (trackerReply webpeerReply : Reply StatusData) (effs : list Effect) :
  channelName ∉ channels st →
  runAsync (joinChannel channelName trackerReply webpeerReply) st
    = (Returned (), (st', effs)) →
  channels st' = channels st ++ [channelName]
  ∧ messages st' = <[channelName := []]> (messages st)
  ∧ lastReadPositions st' = <[channelName := 0%nat]> (lastReadPositions st).
Proof.
  intros Hnew%includes_false. run_async.
  destruct (currentUser st) as [u|]; [|done].
  destruct trackerReply as [e|data]; cbn; [done|].
  destruct (bool_decide (status data = "success")); cbn; [|done].
  destruct webpeerReply as [e|wdata]; cbn; [done|].
  rewrite Hnew.
  destruct (bool_decide (status wdata = "success")); cbn; by intros [= <- _].
Qed.

(** C10. When the channel is already in the channel list, a [joinChannel]
    that completes leaves the state as it was; in particular the channel's
    message sequence and read cursor are the ones it had. *)
Theorem rejoin_preserves_history (st st' : AppState) (channelName : string)
    (trackerReply webpeerReply : Reply StatusData) (effs : list Effect)
    (Hjoined : channelName ∈ channels st)
    (Hok : runAsync (joinChannel channelName trackerReply webpeerReply) st
           = (Returned (), (st', effs))) :
  st' = st
  ∧ messages st' !! channelName = messages st !! channelName
  ∧ lastReadPositions st' !! channelName = lastReadPositions st !! channelName.
Proof.
  assert (Hsame : st' = st).
  { apply includes_true in Hjoined. revert Hok. run_async.
    destruct (currentUser st) as [u|]; [|done].
    destruct trackerReply as [e|data]; cbn; [done|].
    destruct (bool_decide (status data = "success")); cbn; [|done].
    destruct webpeerReply as [e|wdata]; cbn; [done|].
    rewrite Hjoined.
    destruct (bool_decide (status wdata = "success")); cbn; by intros [= <- _]. }
  by rewrite Hsame.
Qed.

Lemma rejoin_preserves_history_witness :
  let reply := Resolved (mkStatusData "success" "") in
  (runAsync (joinChannel "general" reply reply) joinedState).2.1 = joinedState.
Proof.
  intros reply.
  assert (Hin : "general" ∈ channels joinedState) by (simpl; by left).
  destruct (runAsync (joinChannel "general" reply reply) joinedState)
    as [out [st' effs]] eqn:Hrun.
  assert (Hout : out = Returned ()).
  { change out with (out, (st', effs)).1. rewrite <- Hrun. reflexivity. }
  rewrite Hout in Hrun.
  exact (proj1 (rejoin_preserves_history joinedState st' "general" reply reply effs Hin Hrun)).
Defined.

(** ** Logout and fetches in flight *)

Lemma pollCallback_currentUser u hidden reply st :
  currentUser (runAsync (pollCallback u hidden reply) st).2.1 = currentUser st.
Proof.
  run_async. destruct reply as [e|data]; cbn; [done|].
  destruct (bool_decide (pollStatus data = "success")); cbn; [|done].
  destruct (pollMessages data) as [msgs|]; cbn; [|done].
  by destruct (pollUpdater u hidden msgs (messages st)).
Qed.

Lemma pollCallback_success u hidden data msgs st :
  pollStatus data = "success" → pollMessages data = Some msgs →
  messages (runAsync (pollCallback u hidden (Resolved data)) st).2.1
  = (pollUpdater u hidden msgs (messages st)).1.
Proof.
  intros Hst Hmsgs. run_async.
  rewrite (bool_decide_eq_true_2 _ Hst), Hmsgs. cbn.
  by destruct (pollUpdater u hidden msgs (messages st)).
Qed.

Lemma step_stopped e w :
  isRegister e = false → interval w = None → currentUser (app w) = None →
  interval (step e w) = None
  ∧ currentUser (app (step e w)) = None
  ∧ (length (inflight (step e w)) ≤ length (inflight w))%nat.
Proof.
  intros He Hint Hcu. destruct e as [user| | |i hidden reply]; simpl in *.
  - done.
  - done.
  - by rewrite Hint.
  - destruct (inflight w !! i) as [u|] eqn:Hi; simpl; [|done].
    rewrite pollCallback_currentUser.
    repeat split; try done.
    rewrite length_delete by eauto. lia.
Qed.

Lemma step_idle e w :
  isRegister e = false → inflight w = [] →
  step e (step EvLogout w) = step EvLogout w.
Proof.
  intros He Hfl. destruct e as [user| | |i hidden reply]; simpl in *.
  - done.
  - done.
  - done.
  - by rewrite Hfl.
Qed.

Lemma run_stopped es w :
  forallb (λ e, negb (isRegister e)) es = true →
  interval w = None → currentUser (app w) = None →
  interval (run es w) = None
  ∧ currentUser (app (run es w)) = None
  ∧ (length (inflight (run es w)) ≤ length (inflight w))%nat.
Proof.
  revert w. induction es as [|e es IH]; intros w Hes Hint Hcu; simpl in *; [done|].
  apply andb_true_iff in Hes as [He%negb_true_iff Hes].
  destruct (step_stopped e w He Hint Hcu) as (Hint' & Hcu' & Hlen).
  destruct (IH (step e w) Hes Hint' Hcu') as (? & ? & ?).
  repeat split; try done. unfold run in *. lia.
Qed.

Lemma run_idle es w :
  forallb (λ e, negb (isRegister e)) es = true → inflight w = [] →
  run es (step EvLogout w) = step EvLogout w.
Proof.
  intros Hes Hfl. unfold run.
  induction es as [|e es IH]; cbn [foldl forallb] in *; [done|].
  apply andb_true_iff in Hes as [He%negb_true_iff Hes].
  rewrite (step_idle e w He Hfl). by apply IH.
Qed.

(** C2 (as stated) fails: alice's poll is in flight when she logs out; when
    it settles, its record is merged into the store that logout emptied,
    although no identity has been created since. *)
Lemma logout_inflight_counterexample : ¬ logoutFreezesStore.
Proof.
  intros Hfreeze.
  pose (alice := mkUser "alice" "127.0.0.1" 8000 9001 "127.0.0.1" 9002 "").
  pose (record := mkMessage "bob" "hey" "2025-01-01T00:00:00.000Z" None None None).
  pose (w := run [EvRegister alice; EvTick] initialWorld).
  specialize (Hfreeze w
    [EvSettle 0 false (Resolved (mkPollData "success" (Some [record])))] eq_refl).
  apply (f_equal (λ m : gmap string (list Message), m !! "bob")) in Hfreeze.
  vm_compute in Hfreeze. discriminate Hfreeze.
Qed.

(** C2 (as amended). After a logout and until a new identity is created,
    the interval is gone and no identity is present, so no new cycle starts
    and no new fetch is issued; when no fetch was in flight at the logout
    nothing changes any more and the store stays empty.  A fetch that was in
    flight is not discarded: when it settles with status "success" its
    records are merged into the emptied store, under the identity the cycle
    started with. *)
Theorem logout_stops_new_cycles (w : World) (es : list Event)
    (Hnoreg : forallb (λ e, negb (isRegister e)) es = true) :
  let w' := run es (step EvLogout w) in
  messages (app (step EvLogout w)) = ∅
  ∧ interval w' = None
  ∧ currentUser (app w') = None
  ∧ (length (inflight w') ≤ length (inflight w))%nat
  ∧ (inflight w = [] → w' = step EvLogout w ∧ messages (app w') = ∅)
  ∧ (∀ i u hidden data msgs,
       inflight w !! i = Some u →
       pollStatus data = "success" → pollMessages data = Some msgs →
       messages (app (step (EvSettle i hidden (Resolved data)) (step EvLogout w)))
       = (pollUpdater u hidden msgs ∅).1).
Proof.
  intros w'. split; [done|].
  destruct (run_stopped es (step EvLogout w) Hnoreg eq_refl eq_refl) as (Hint & Hcu & Hlen).
  split; [done|]. split; [done|]. split; [done|]. split.
  - intros Hfl. unfold w'. by rewrite (run_idle es w Hnoreg Hfl).
  - intros i u hidden data msgs Hi Hst Hmsgs. simpl. rewrite Hi. simpl.
    by rewrite (pollCallback_success u hidden data msgs _ Hst Hmsgs).
Qed.

Lemma logout_stops_new_cycles_witness :
  let alice := mkUser "alice" "127.0.0.1" 8000 9001 "127.0.0.1" 9002 "" in
  let record := mkMessage "bob" "hey" "2025-01-01T00:00:00.000Z" None None None in
  let reply := Resolved (mkPollData "success" (Some [record])) in
  let w := run [EvRegister alice] initialWorld in
  messages (app (run [EvTick; EvSettle 0 false reply; EvTick] (step EvLogout w))) = ∅.
Proof.
  intros alice record reply w.
  exact (proj2 (proj1 (proj2 (proj2 (proj2 (proj2
           (logout_stops_new_cycles w [EvTick; EvSettle 0 false reply; EvTick] eq_refl)))))
           eq_refl)).
Defined.

(** * Further properties of the merge *)

Lemma mergeStore_cases u msg (s : gmap string (list Message)) :
  mergeStore u msg s = s
  ∨ ∃ t, resolveTarget u msg = Some t ∧ truthy t = true
         ∧ alreadyStored msg (default [] (s !! t)) = false
         ∧ mergeStore u msg s = <[t := default [] (s !! t) ++ [storedMessage u msg]]> s.
Proof.
  rewrite mergeStore_unfold.
  destruct (resolveTarget u msg) as [t|]; [|by left].
  destruct (truthy t) eqn:Ht; [|by left].
  destruct (alreadyStored msg (default [] (s !! t))) eqn:Hs; [by left|].
  right. by exists t.
Qed.

Lemma extendsStore_refl s : extendsStore s s.
Proof. intros key l Hl. by exists l. Qed.

Lemma extendsStore_trans s1 s2 s3 :
  extendsStore s1 s2 → extendsStore s2 s3 → extendsStore s1 s3.
Proof.
  intros H12 H23 key l Hl.
  destruct (H12 key l Hl) as (l2 & Hl2 & Hp2).
  destruct (H23 key l2 Hl2) as (l3 & Hl3 & Hp3).
  exists l3. split; [done|]. by etrans.
Qed.

Lemma mergeStore_extends u msg s : extendsStore s (mergeStore u msg s).
Proof.
  destruct (mergeStore_cases u msg s) as [-> | (t & _ & _ & _ & ->)];
    [apply extendsStore_refl|].
  intros key l Hl. destruct (decide (key = t)) as [->|Hne].
  - rewrite lookup_insert_eq, Hl; simpl.
    eexists; split; [done|]. by apply prefix_app_r.
  - rewrite lookup_insert_ne by done. by exists l.
Qed.

Lemma mergeStore_fold_extends u batch s :
  extendsStore s (foldl (λ s m, mergeStore u m s) s batch).
Proof.
  revert s. induction batch as [|m batch IH]; intros s; simpl.
  - apply extendsStore_refl.
  - eapply extendsStore_trans; [apply mergeStore_extends | apply IH].
Qed.

(** X1. A merge only appends: every conversation of the store is still
    there afterwards and its old sequence is a prefix of the new one (no
    message is dropped, replaced or reordered). *)
Theorem merge_append_only (u : User) (hidden : bool) (batch : list Message)
    (s : gmap string (list Message)) :
  extendsStore s (pollUpdater u hidden batch s).1
  ∧ ∀ key, (length (default [] (s !! key))
            ≤ length (default [] ((pollUpdater u hidden batch s).1 !! key)))%nat.
Proof.
  assert (Hext : extendsStore s (pollUpdater u hidden batch s).1).
  { rewrite pollUpdater_store. apply mergeStore_fold_extends. }
  split; [done|]. intros key.
  destruct (s !! key) as [l|] eqn:Hl; simpl; [|lia].
  destruct (Hext key l Hl) as (l' & -> & Hp); simpl.
  by apply prefix_length.
Qed.

Lemma sameMessage_key msg m : sameMessage msg m = true ↔ messageKey m = messageKey msg.
Proof.
  unfold sameMessage, messageKey. rewrite !andb_true_iff, !bool_decide_eq_true.
  split; [intros [[-> ->] ->]; done | intros [= -> -> ->]; done].
Qed.

Lemma alreadyStored_key msg l :
  alreadyStored msg l = true ↔ messageKey msg ∈ messageKey <$> l.
Proof.
  unfold alreadyStored. rewrite existsb_exists, list_elem_of_fmap. split.
  - intros (m & Hin & Hm). exists m. split; [symmetry; by apply sameMessage_key|].
    by apply list_elem_of_In.
  - intros (m & Hk & Hin). exists m. split; [by apply list_elem_of_In|].
    by apply sameMessage_key.
Qed.

Lemma mergeStore_distinct u msg s : distinctKeys s → distinctKeys (mergeStore u msg s).
Proof.
  intros Hs. destruct (mergeStore_cases u msg s) as [-> | (t & _ & _ & Hnew & ->)]; [done|].
  intros key l. destruct (decide (key = t)) as [->|Hne].
  - rewrite lookup_insert_eq. intros [= <-].
    rewrite fmap_app. apply NoDup_app. split; [|split].
    + destruct (s !! t) as [l0|] eqn:Hl0; simpl; [by apply (Hs t)|constructor].
    + intros k Hk Hk'. simpl in Hk'. apply list_elem_of_singleton in Hk' as ->.
      change (messageKey (storedMessage u msg)) with (messageKey msg) in Hk.
      apply alreadyStored_key in Hk. congruence.
    + simpl. apply NoDup_singleton.
  - rewrite lookup_insert_ne by done. apply Hs.
Qed.

(** X2. If no conversation holds two entries with the same
    (sender, body, timestamp), the same is true after a merge. *)
Theorem merge_keeps_keys_distinct (u : User) (hidden : bool) (batch : list Message)
    (s : gmap string (list Message)) (Hs : distinctKeys s) :
  distinctKeys (pollUpdater u hidden batch s).1.
Proof.
  rewrite pollUpdater_store. revert s Hs.
  induction batch as [|m batch IH]; intros s Hs; simpl; [done|].
  by apply IH, mergeStore_distinct.
Qed.

Lemma merge_keeps_keys_distinct_witness :
  let alice := mkUser "alice" "127.0.0.1" 8000 9001 "127.0.0.1" 9002 "" in
  let hey := mkMessage "bob" "hey" "T1" None None None in
  distinctKeys (pollUpdater alice false [hey; hey] ∅).1.
Proof.
  intros alice hey.
  apply (merge_keeps_keys_distinct alice false [hey; hey] ∅).
  intros key l Hl. by rewrite lookup_empty in Hl.
Defined.

Lemma mergeRecord_appended u hidden msg s effs t :
  resolveTarget u msg = Some t → truthy t = true →
  alreadyStored msg (default [] (s !! t)) = false →
  mergeRecord u hidden msg (s, effs)
  = (<[t := default [] (s !! t) ++ [storedMessage u msg]]> s,
     effs ++ notifyNew u hidden t msg).
Proof.
  intros Ht Htr Hnew. unfold mergeRecord. rewrite Ht, Htr. cbn [negb].
  destruct (s !! t) as [l|] eqn:Hl; cbn [default] in *.
  - rewrite Hl. cbn [default]. rewrite findIndex_missing.
    unfold alreadyStored in Hnew. by rewrite Hnew.
  - rewrite lookup_insert_eq. cbn [default]. by rewrite insert_insert_eq.
Qed.

Lemma mergeRecord_not_appended u hidden msg s effs :
  (mergeRecord u hidden msg (s, effs)).1 = s →
  ∃ issued, mergeRecord u hidden msg (s, effs) = (s, effs ++ issued)
            ∧ Forall (λ e, isNotification e = false) issued.
Proof.
  intros Hsame. apply settled_step. unfold settled.
  destruct (resolveTarget u msg) as [t|] eqn:Ht; [|done].
  destruct (truthy t) eqn:Htr; [|by left]. right.
  destruct (alreadyStored msg (default [] (s !! t))) eqn:Hnew; [done|].
  exfalso. rewrite (mergeRecord_appended u hidden msg s effs t Ht Htr Hnew) in Hsame.
  simpl in Hsame. apply (f_equal (λ m : gmap string (list Message), m !! t)) in Hsame.
  rewrite lookup_insert_eq in Hsame.
  destruct (s !! t) as [l|]; [|done]. simpl in Hsame.
  injection Hsame as Hl. apply (f_equal length) in Hl.
  rewrite length_app in Hl. simpl in Hl. lia.
Qed.

(** X3. One merge step notifies exactly when it appends a message of
    someone else: if nothing is appended, no sound or notification is issued;
    if a record of the current user is appended, nothing is issued at all; if
    a record of someone else is appended, one sound is played, followed by
    one OS notification when the document is hidden and by nothing
    otherwise. *)
Theorem merge_step_notifies_new_foreign (u : User) (hidden : bool) (msg : Message)
    (s : gmap string (list Message)) (effs : list Effect) :
  let r := mergeRecord u hidden msg (s, effs) in
  ∃ issued, r.2 = effs ++ issued
    ∧ (r.1 = s → Forall (λ e, isNotification e = false) issued)
    ∧ (r.1 ≠ s → from msg = username u → issued = [])
    ∧ (r.1 ≠ s → from msg ≠ username u →
         ∃ title, issued = PlayNotificationSound ::
                    (if hidden then [ShowBrowserNotification title (message msg)] else [])).
Proof.
  intros r. destruct (decide (r.1 = s)) as [Hsame|Hdiff].
  - destruct (mergeRecord_not_appended u hidden msg s effs Hsame) as (issued & Heq & Hn).
    exists issued. unfold r. rewrite Heq. by repeat split.
  - assert (Hcase : ∃ t, r = (<[t := default [] (s !! t) ++ [storedMessage u msg]]> s,
                              effs ++ notifyNew u hidden t msg)).
    { unfold r in *. rewrite mergeRecord_fst in Hdiff. simpl in Hdiff.
      destruct (mergeStore_cases u msg s) as [Hs | (t & Ht & Htr & Hnew & _)]; [done|].
      exists t. by apply mergeRecord_appended. }
    destruct Hcase as (t & ->). exists (notifyNew u hidden t msg). simpl.
    split; [done|]. split; [done|]. unfold notifyNew. split.
    + intros _ Hself. by rewrite (bool_decide_eq_true_2 _ Hself).
    + intros _ Hother. rewrite (bool_decide_eq_false_2 _ Hother). simpl.
      destruct hidden; eauto.
Qed.

Lemma notifyNew_visible u t msg e :
  e ∈ notifyNew u false t msg → e = PlayNotificationSound.
Proof.
  unfold notifyNew. destruct (negb _); [|by intros ?%elem_of_nil].
  by intros ->%list_elem_of_singleton.
Qed.

Lemma notifyNew_self u hidden t msg :
  from msg = username u → notifyNew u hidden t msg = [].
Proof. intros H. unfold notifyNew. by rewrite (bool_decide_eq_true_2 _ H). Qed.

Lemma mergeRecord_effects u hidden msg s effs :
  (mergeRecord u hidden msg (s, effs)).2 = effs
  ∨ (mergeRecord u hidden msg (s, effs)).2
    = effs ++ [ConsoleWarn "Could not determine target for message:"]
  ∨ ∃ t, (mergeRecord u hidden msg (s, effs)).2 = effs ++ notifyNew u hidden t msg.
Proof.
  unfold mergeRecord. destruct (resolveTarget u msg) as [t|]; [|by left].
  destruct (truthy t); cbn [negb]; [|right; by left].
  cbn zeta. destruct (_ =? _)%Z; [right; right; by exists t | by left].
Qed.

(** X4. While the document is visible a merge never creates an OS
    notification (sounds only), and a batch made of the current user's own
    records is merged without any sound or notification. *)
Theorem merge_notification_policy (u : User) (batch : list Message)
    (s : gmap string (list Message)) :
  Forall (λ e, ∀ title body, e ≠ ShowBrowserNotification title body)
         (pollUpdater u false batch s).2
  ∧ ∀ hidden, Forall (λ m, from m = username u) batch →
              Forall (λ e, isNotification e = false) (pollUpdater u hidden batch s).2.
Proof.
  unfold pollUpdater. split.
  - assert (Hgen : ∀ acc,
      Forall (λ e, ∀ title body, e ≠ ShowBrowserNotification title body) acc.2 →
      Forall (λ e, ∀ title body, e ≠ ShowBrowserNotification title body)
        (foldl (λ acc msg, mergeRecord u false msg acc) acc batch).2).
    { induction batch as [|m batch IH]; intros acc Hacc; cbn [foldl]; [done|].
      apply IH. destruct acc as [s0 e0]; simpl in Hacc.
      destruct (mergeRecord_effects u false m s0 e0) as [-> | [-> | (t & ->)]]; [done|..].
      - apply Forall_app. split; [done|]. by repeat constructor.
      - apply Forall_app. split; [done|]. apply Forall_forall.
        intros e He%notifyNew_visible. by subst. }
    by apply Hgen.
  - intros hidden Hself.
    assert (Hgen : ∀ acc,
      Forall (λ e, isNotification e = false) acc.2 →
      Forall (λ e, isNotification e = false)
        (foldl (λ acc msg, mergeRecord u hidden msg acc) acc batch).2).
    { induction Hself as [|m batch Hm Hb IH]; intros acc Hacc; cbn [foldl]; [done|].
      apply IH. destruct acc as [s0 e0]; simpl in Hacc.
      destruct (mergeRecord_effects u hidden m s0 e0) as [-> | [-> | (t & ->)]]; [done|..].
      - apply Forall_app. split; [done|]. by repeat constructor.
      - rewrite (notifyNew_self u hidden t m Hm). by rewrite app_nil_r. }
    by apply Hgen.
Qed.

Lemma resolveTarget_direct u msg :
  channel msg = None ∨ channel msg = Some "" ∨ channel msg = Some "direct" →
  from msg ≠ username u → resolveTarget u msg = Some (from msg).
Proof.
  intros Htag Hother. unfold resolveTarget, isDirect.
  rewrite (bool_decide_eq_false_2 _ Hother).
  by destruct Htag as [-> | [-> | ->]].
Qed.

(** X5. A direct record (no tag, empty tag or 'direct') of another user
    with a non-empty name is filed under its sender: the sender's sequence is
    unchanged when it already holds the record's key and is extended by the
    stored copy, flagged as not sent, otherwise; no other conversation
    changes. *)
Theorem direct_record_filed_under_sender (u : User) (hidden : bool) (msg : Message)
    (s : gmap string (list Message)) (effs : list Effect)
    (Htag : channel msg = None ∨ channel msg = Some "" ∨ channel msg = Some "direct")
    (Hother : from msg ≠ username u) (Hname : from msg ≠ "") :
  let s' := (mergeRecord u hidden msg (s, effs)).1 in
  let old := default [] (s !! from msg) in
  s' !! from msg
    = (if alreadyStored msg old then s !! from msg
       else Some (old ++ [storedMessage u msg]))
  ∧ sent (storedMessage u msg) = Some false
  ∧ ∀ key, key ≠ from msg → s' !! key = s !! key.
Proof.
  intros s' old. unfold s'. rewrite mergeRecord_store.
  rewrite (resolveTarget_direct u msg Htag Hother).
  unfold truthy. rewrite (bool_decide_eq_false_2 _ Hname). cbn [negb].
  fold old. split; [|split].
  - destruct (alreadyStored msg old); [done|]. by rewrite lookup_insert_eq.
  - simpl. by rewrite (bool_decide_eq_false_2 _ Hother).
  - intros key Hkey. destruct (alreadyStored msg old); [done|].
    by rewrite lookup_insert_ne.
Qed.

Lemma direct_record_filed_under_sender_witness :
  let alice := mkUser "alice" "127.0.0.1" 8000 9001 "127.0.0.1" 9002 "" in
  let hey := mkMessage "bob" "hey" "T1" (Some "direct") None None in
  (mergeRecord alice false hey (∅, [])).1 !! "bob"
  = Some [mkMessage "bob" "hey" "T1" (Some "direct") (Some false) (Some ∅)].
Proof.
  intros alice hey.
  assert (H1 : from hey ≠ username alice) by discriminate.
  assert (H2 : from hey ≠ "") by discriminate.
  exact (proj1 (direct_record_filed_under_sender alice false hey ∅ []
                  (or_intror (or_intror eq_refl)) H1 H2)).
Defined.

(** X6. A direct record whose sender is the empty string (and is not the
    current user) has no target: it is dropped with a console warning, the
    store is unchanged and the rest of the batch is still merged. *)
Theorem direct_record_without_sender_dropped (u : User) (hidden : bool) (msg : Message)
    (Htag : channel msg = None ∨ channel msg = Some "" ∨ channel msg = Some "direct")
    (Hother : from msg ≠ username u) (Hname : from msg = "") :
  (∀ s effs, mergeRecord u hidden msg (s, effs)
             = (s, effs ++ [ConsoleWarn "Could not determine target for message:"]))
  ∧ ∀ rest s, (pollUpdater u hidden (msg :: rest) s).1 = (pollUpdater u hidden rest s).1.
Proof.
  assert (Hstep : ∀ s effs, mergeRecord u hidden msg (s, effs)
             = (s, effs ++ [ConsoleWarn "Could not determine target for message:"])).
  { intros s effs. unfold mergeRecord.
    rewrite (resolveTarget_direct u msg Htag Hother), Hname. done. }
  split; [done|]. intros rest s.
  rewrite !pollUpdater_store. cbn [foldl].
  change s with (s, @nil Effect).1 at 1.
  by rewrite <- (mergeRecord_fst u hidden msg), Hstep.
Qed.

Lemma direct_record_without_sender_dropped_witness :
  let alice := mkUser "alice" "127.0.0.1" 8000 9001 "127.0.0.1" 9002 "" in
  let anonymous := mkMessage "" "hey" "T1" None None None in
  let hey := mkMessage "bob" "hey" "T1" None None None in
  (pollUpdater alice false [anonymous; hey] ∅).1 = (pollUpdater alice false [hey] ∅).1.
Proof.
  intros alice anonymous hey.
  assert (H1 : from anonymous ≠ username alice) by discriminate.
  exact (proj2 (direct_record_without_sender_dropped alice false anonymous
                  (or_introl eq_refl) H1 eq_refl) [hey] ∅).
Defined.

(** * Further properties of the provider's operations *)

Lemma pollCallback_success_run u hidden data msgs st :
  pollStatus data = "success" → pollMessages data = Some msgs →
  runAsync (pollCallback u hidden (Resolved data)) st
  = (Returned (),
     (withMessages (λ _, (pollUpdater u hidden msgs (messages st)).1) st,
      Fetch (webpeerIp u) (webpeerPort u) "/get-messages"
      :: SetMessages (pollUpdater u hidden msgs (messages st)).1
      :: (pollUpdater u hidden msgs (messages st)).2)).
Proof.
  intros Hst Hmsgs. run_async.
  rewrite (bool_decide_eq_true_2 _ Hst), Hmsgs. cbn.
  by destruct (pollUpdater u hidden msgs (messages st)).
Qed.

Lemma pollCallback_state u hidden reply st :
  (runAsync (pollCallback u hidden reply) st).2.1 = st
  ∨ ∃ msgs, (runAsync (pollCallback u hidden reply) st).2.1
            = withMessages (λ _, (pollUpdater u hidden msgs (messages st)).1) st.
Proof.
  destruct reply as [e|data]; [left; by run_async|].
  destruct (decide (pollStatus data = "success")) as [Hst|Hst].
  - destruct (pollMessages data) as [msgs|] eqn:Hmsgs.
    + right. exists msgs. by rewrite (pollCallback_success_run u hidden data msgs st).
    + left. run_async. rewrite (bool_decide_eq_true_2 _ Hst), Hmsgs. done.
  - left. run_async. by rewrite (bool_decide_eq_false_2 _ Hst).
Qed.

Lemma sendMessage_state st u isoNow text target isChannel reply :
  currentUser st = Some u →
  (runAsync (sendMessage isoNow text target isChannel reply) st).2.1
  = withMessages
      (λ prev, <[target := default [] (prev !! target) ++ [sentMessage u text isoNow]]> prev)
      st.
Proof.
  intros Hu. run_async. rewrite Hu.
  destruct isChannel, reply as [error|data]; cbn; try done;
    destruct (bool_decide (status data = "success")); done.
Qed.

Lemma sendMessage_logged_out st isoNow text target isChannel reply :
  currentUser st = None →
  runAsync (sendMessage isoNow text target isChannel reply) st
  = (Thrown "User not logged in", (st, [])).
Proof. intros Hu. run_async. by rewrite Hu. Qed.

(** X7. The echo of one's own channel message.  After [sendMessage] to a
    channel, a poll that returns the same message from the current user under
    that channel tag is appended as a second copy (flagged sent, without any
    sound or notification) when its timestamp differs from the local one, and
    is recognised as the optimistic copy only when the timestamps are equal. *)
Theorem own_channel_echo (st : AppState) (u : User)
    (isoNow serverTime text target : string) (hidden : bool)
    (reply : Reply StatusData)
    (Hu : currentUser st = Some u)
    (Htarget : target ≠ "") (Hdirect : target ≠ "direct") :
  let echo := mkMessage (username u) text serverTime (Some target) None None in
  let old := default [] (messages st !! target) in
  let st1 := (runAsync (sendMessage isoNow text target true reply) st).2.1 in
  let r := runAsync (pollCallback u hidden
                       (Resolved (mkPollData "success" (Some [echo])))) st1 in
  alreadyStored echo old = false →
  messages r.2.1 !! target
    = Some (if bool_decide (serverTime = isoNow)
            then old ++ [sentMessage u text isoNow]
            else old ++ [sentMessage u text isoNow; storedMessage u echo])
  ∧ sent (storedMessage u echo) = Some true
  ∧ Forall (λ e, isNotification e = false) r.2.2.
Proof.
  intros echo old st1 r Hold.
  assert (Hst1 : messages st1 = <[target := old ++ [sentMessage u text isoNow]]> (messages st)).
  { unfold st1. by rewrite (sendMessage_state st u isoNow text target true reply Hu). }
  assert (Hres : resolveTarget u echo = Some target).
  { unfold resolveTarget, isDirect, truthyOpt, truthy. simpl.
    rewrite (bool_decide_eq_false_2 (Some target = Some "direct")) by congruence.
    by rewrite (bool_decide_eq_false_2 _ Htarget). }
  assert (Htr : truthy target = true).
  { unfold truthy. by rewrite (bool_decide_eq_false_2 _ Htarget). }
  assert (Hsame : alreadyStored echo (old ++ [sentMessage u text isoNow])
                  = bool_decide (serverTime = isoNow)).
  { rewrite alreadyStored_app, Hold. simpl. unfold sameMessage. simpl.
    rewrite !bool_decide_eq_true_2 by done. simpl. rewrite orb_false_r.
    apply bool_decide_ext. split; congruence. }
  unfold r.
  rewrite (pollCallback_success_run u hidden (mkPollData "success" (Some [echo]))
             [echo] st1 eq_refl eq_refl).
  cbn [fst snd]. unfold pollUpdater. cbn [foldl].
  assert (Hlook : default [] (messages st1 !! target) = old ++ [sentMessage u text isoNow]).
  { by rewrite Hst1, lookup_insert_eq. }
  destruct (bool_decide (serverTime = isoNow)) eqn:Htime.
  - assert (Hset : settled u echo (messages st1)).
    { unfold settled. rewrite Hres. right. by rewrite Hlook. }
    destruct (settled_step u hidden echo (messages st1) [] Hset) as (issued & -> & Hn).
    simpl. split; [by rewrite Hst1, lookup_insert_eq|].
    split; [by rewrite bool_decide_eq_true_2|].
    by repeat constructor.
  - rewrite (mergeRecord_appended u hidden echo (messages st1) [] target Hres Htr)
      by (by rewrite Hlook).
    rewrite (notifyNew_self u hidden target echo eq_refl). simpl.
    split; [|split].
    + rewrite lookup_insert_eq, Hlook. by rewrite <- app_assoc.
    + by rewrite bool_decide_eq_true_2.
    + by repeat constructor.
Qed.

Lemma own_channel_echo_witness :
  let alice := mkUser "alice" "127.0.0.1" 8000 9001 "127.0.0.1" 9002 "" in
  let st := withCurrentUser (Some alice) initialState in
  let echo := mkMessage "alice" "hi all" "T-server" (Some "general") None None in
  let st1 := (runAsync (sendMessage "T-local" "hi all" "general" true
                          (Resolved (mkStatusData "success" ""))) st).2.1 in
  let r := runAsync (pollCallback alice false
                       (Resolved (mkPollData "success" (Some [echo])))) st1 in
  messages r.2.1 !! "general"
  = Some [sentMessage alice "hi all" "T-local"; storedMessage alice echo].
Proof.
  intros alice st echo st1 r.
  assert (H1 : "general" ≠ "") by discriminate.
  assert (H2 : "general" ≠ "direct") by discriminate.
  exact (proj1 (own_channel_echo st alice "T-local" "T-server" "hi all" "general" false
                  (Resolved (mkStatusData "success" "")) eq_refl H1 H2 eq_refl)).
Defined.

(** ** Unread counts under the operations *)

Lemma unread_formula_prefix (cu : option User) (c : nat) (l l' : list Message) :
  l `prefix_of` l' →
  (length (filter (λ m, negb (isSent cu m) = true) (drop c l))
   ≤ length (filter (λ m, negb (isSent cu m) = true) (drop c l')))%nat.
Proof.
  intros [k ->]. rewrite drop_app, filter_app, length_app. lia.
Qed.

(** X8. A polling cycle never lowers an unread count: whatever the fetch
    returns, every conversation's count afterwards is at least what it was. *)
Theorem poll_never_lowers_unread (u : User) (hidden : bool) (reply : Reply PollData)
    (st : AppState) (key : string) :
  (unreadOf st key ≤ unreadOf (runAsync (pollCallback u hidden reply) st).2.1 key)%nat.
Proof.
  destruct (pollCallback_state u hidden reply st) as [-> | (msgs & ->)]; [done|].
  rewrite !unreadOf_derived. cbn [currentUser lastReadPositions messages withMessages].
  destruct (messages st !! key) as [l|] eqn:Hl.
  - assert (Hext : extendsStore (messages st) (pollUpdater u hidden msgs (messages st)).1).
    { rewrite pollUpdater_store. apply mergeStore_fold_extends. }
    destruct (Hext key l Hl) as (l' & -> & Hp). cbn [default].
    by apply unread_formula_prefix.
  - cbn [default]. rewrite drop_nil. simpl. lia.
Qed.

(** X9. A new message of another user counts once: when a cycle returns
    one record that resolves to conversation [t], is not from the current
    user and is not stored yet, and the cursor of [t] is within its sequence,
    the unread count of [t] grows by exactly one and no other count changes. *)
Theorem inbound_message_counts_once (st : AppState) (u : User) (hidden : bool)
    (msg : Message) (t : string)
    (Hu : currentUser st = Some u)
    (Ht : resolveTarget u msg = Some t) (Htruthy : t ≠ "")
    (Hother : from msg ≠ username u)
    (Hnew : alreadyStored msg (default [] (messages st !! t)) = false)
    (Hcursor : (default 0%nat (lastReadPositions st !! t)
                ≤ length (default [] (messages st !! t)))%nat) :
  let st' := (runAsync (pollCallback u hidden
                          (Resolved (mkPollData "success" (Some [msg])))) st).2.1 in
  unreadOf st' t = S (unreadOf st t)
  ∧ ∀ key, key ≠ t → unreadOf st' key = unreadOf st key.
Proof.
  intros st'.
  assert (Htr : truthy t = true).
  { unfold truthy. by rewrite (bool_decide_eq_false_2 _ Htruthy). }
  assert (Hst' : messages st'
                 = <[t := default [] (messages st !! t) ++ [storedMessage u msg]]> (messages st)
                 ∧ lastReadPositions st' = lastReadPositions st
                 ∧ currentUser st' = currentUser st).
  { unfold st'.
    rewrite (pollCallback_success_run u hidden (mkPollData "success" (Some [msg]))
               [msg] st eq_refl eq_refl).
    cbn [fst snd messages lastReadPositions currentUser withMessages].
    unfold pollUpdater. cbn [foldl].
    by rewrite (mergeRecord_appended u hidden msg (messages st) [] t Ht Htr Hnew). }
  destruct Hst' as (Hm & Hc & Hcu). split.
  - rewrite !unreadOf_derived, Hm, Hc, Hcu, lookup_insert_eq. cbn [default]. unfold id.
    rewrite drop_app_le by done. rewrite filter_app, length_app.
    rewrite filter_cons, decide_True; [simpl; lia|].
    rewrite Hu. unfold isSent. simpl.
    by rewrite (bool_decide_eq_false_2 _ Hother).
  - intros key Hkey. rewrite !unreadOf_derived, Hm, Hc, Hcu.
    by rewrite lookup_insert_ne.
Qed.

Lemma inbound_message_counts_once_witness :
  let alice := mkUser "alice" "127.0.0.1" 8000 9001 "127.0.0.1" 9002 "" in
  let st := withCurrentUser (Some alice) initialState in
  let hey := mkMessage "bob" "hey" "T1" None None None in
  let st' := (runAsync (pollCallback alice false
                          (Resolved (mkPollData "success" (Some [hey])))) st).2.1 in
  unreadOf st' "bob" = 1%nat.
Proof.
  intros alice st hey st'.
  assert (H1 : "bob" ≠ "") by discriminate.
  assert (H2 : from hey ≠ username alice) by discriminate.
  exact (proj1 (inbound_message_counts_once st alice false hey "bob"
                  eq_refl eq_refl H1 H2 eq_refl (le_n 0))).
Defined.

Lemma filter_drop_singleton_out {A} (P : A → Prop) `{!∀ x, Decision (P x)} (x : A) (k : nat) :
  ¬ P x → filter P (drop k [x]) = [].
Proof.
  intros Hx. destruct k as [|k]; simpl.
  - by rewrite filter_cons, decide_False.
  - by rewrite drop_nil.
Qed.

(** X10. Sending never changes an unread count: the appended copy is the
    user's own, so every conversation's count after [sendMessage] is what it
    was, whether the call succeeds, fails or is refused for lack of identity. *)
Theorem send_keeps_unread (st : AppState) (isoNow text target : string)
    (isChannel : bool) (reply : Reply StatusData) (key : string) :
  unreadOf (runAsync (sendMessage isoNow text target isChannel reply) st).2.1 key
  = unreadOf st key.
Proof.
  destruct (currentUser st) as [u|] eqn:Hu.
  - rewrite (sendMessage_state st u isoNow text target isChannel reply Hu).
    rewrite !unreadOf_derived. cbn [currentUser lastReadPositions messages withMessages].
    destruct (decide (key = target)) as [->|Hne].
    + rewrite lookup_insert_eq. cbn [default]. unfold id.
      rewrite drop_app, filter_app, length_app.
      rewrite filter_drop_singleton_out; [simpl; lia|].
      rewrite Hu. unfold isSent. simpl.
      by rewrite bool_decide_eq_true_2.
    + by rewrite lookup_insert_ne.
  - by rewrite (sendMessage_logged_out st isoNow text target isChannel reply Hu).
Qed.

(** X11. An unread count never exceeds the number of messages past the
    cursor, and [unreadCounts] has an entry exactly for the keys of
    [messages] (a cursor without a conversation yields no entry). *)
Theorem unread_count_bounds (st : AppState) (key : string) :
  (unreadOf st key
   ≤ length (default [] (messages st !! key))
     - default 0%nat (lastReadPositions st !! key))%nat
  ∧ dom (unreadCounts st) = dom (messages st)
  ∧ (messages st !! key = None → unreadCounts st !! key = None).
Proof.
  split; [|split].
  - rewrite unreadOf_derived. rewrite <- length_drop. apply length_filter.
  - apply set_eq. intros k. rewrite !elem_of_dom. unfold unreadCounts.
    rewrite map_lookup_imap. destruct (messages st !! k); simpl;
      split; intros [? ?]; eauto; done.
  - intros Hnone. unfold unreadCounts. by rewrite map_lookup_imap, Hnone.
Qed.

(** ** clearChat, leaveChannel, joinChannel *)

(** X12. [clearChat target] empties the target's sequence and resets its
    cursor, so its unread count is 0; every other conversation keeps its
    sequence, cursor and unread count. *)
Theorem clear_chat_local (st : AppState) (target : string) :
  messages (clearChat target st) !! target = Some []
  ∧ lastReadPositions (clearChat target st) !! target = Some 0%nat
  ∧ unreadOf (clearChat target st) target = 0%nat
  ∧ ∀ key, key ≠ target →
      messages (clearChat target st) !! key = messages st !! key
      ∧ lastReadPositions (clearChat target st) !! key = lastReadPositions st !! key
      ∧ unreadOf (clearChat target st) key = unreadOf st key.
Proof.
  split; [by apply lookup_insert_eq|]. split; [by apply lookup_insert_eq|]. split.
  - rewrite unreadOf_derived. unfold clearChat. simpl.
    by rewrite !lookup_insert_eq.
  - intros key Hkey. rewrite !unreadOf_derived. unfold clearChat. simpl.
    by rewrite !lookup_insert_ne.
Qed.

Lemma leaveChannel_success st u channelName data :
  currentUser st = Some u → status data = "success" →
  runAsync (leaveChannel channelName (Resolved data)) st
  = (Returned (),
     (leftState channelName st,
      [Fetch (trackerIp u) (trackerPort u) "/remove-list";
       SetMessages (delete channelName (messages st))])).
Proof.
  intros Hu Hst. unfold leaveChannel. run_async. rewrite Hu. cbn.
  by rewrite (bool_decide_eq_true_2 _ Hst).
Qed.

Lemma leaveChannel_state st channelName reply :
  (runAsync (leaveChannel channelName reply) st).2.1 = st
  ∨ (runAsync (leaveChannel channelName reply) st).2.1 = leftState channelName st.
Proof.
  unfold leaveChannel. run_async.
  destruct (currentUser st) as [u|]; [|by left].
  destruct reply as [e|data]; cbn; [by left|].
  destruct (bool_decide (status data = "success")); cbn; [by right | by left].
Qed.

(** X13. When the tracker answers "success", [leaveChannel] removes every
    occurrence of the channel from the list and deletes its sequence and its
    cursor (its unread count reads 0); the other channels stay listed in
    their order and no other conversation changes. *)
Theorem leave_channel_removes (st : AppState) (u : User) (channelName : string)
    (data : StatusData)
    (Hu : currentUser st = Some u) (Hok : status data = "success") :
  let r := runAsync (leaveChannel channelName (Resolved data)) st in
  r.1 = Returned ()
  ∧ channels r.2.1 = filter (λ c, c ≠ channelName) (channels st)
  ∧ (channelName ∉ channels r.2.1)
  ∧ messages r.2.1 !! channelName = None
  ∧ lastReadPositions r.2.1 !! channelName = None
  ∧ unreadOf r.2.1 channelName = 0%nat
  ∧ ∀ key, key ≠ channelName →
      messages r.2.1 !! key = messages st !! key
      ∧ lastReadPositions r.2.1 !! key = lastReadPositions st !! key
      ∧ unreadOf r.2.1 key = unreadOf st key.
Proof.
  intros r. unfold r. rewrite (leaveChannel_success st u channelName data Hu Hok).
  cbn [fst snd]. split; [done|]. split; [done|]. split.
  { simpl. intros [Hne _]%list_elem_of_filter. by apply Hne. }
  split; [by apply lookup_delete_eq|]. split; [by apply lookup_delete_eq|]. split.
  - rewrite unreadOf_derived. simpl. by rewrite !lookup_delete_eq.
  - intros key Hkey. rewrite !unreadOf_derived. simpl.
    by rewrite !lookup_delete_ne.
Qed.

Lemma leave_channel_removes_witness :
  let r := runAsync (leaveChannel "general" (Resolved (mkStatusData "success" "")))
                    joinedState in
  channels r.2.1 = [] ∧ messages r.2.1 !! "general" = None.
Proof.
  intros r.
  destruct (leave_channel_removes joinedState
              (mkUser "bob" "127.0.0.1" 8000 9001 "127.0.0.1" 9002 "")
              "general" (mkStatusData "success" "") eq_refl eq_refl)
    as (_ & Hch & _ & Hm & _).
  split; [exact Hch | exact Hm].
Defined.

(** X14. With an identity present [leaveChannel] never throws; when the
    request is rejected or the tracker answers anything but "success", the
    state is left exactly as it was (the channel stays joined). *)
Theorem leave_channel_failure_noop (st : AppState) (u : User) (channelName : string)
    (reply : Reply StatusData)
    (Hu : currentUser st = Some u) :
  let r := runAsync (leaveChannel channelName reply) st in
  r.1 = Returned ()
  ∧ ((∃ error, reply = Rejected error)
     ∨ (∃ data, reply = Resolved data ∧ status data ≠ "success") →
     r.2.1 = st).
Proof.
  intros r. unfold r, leaveChannel. run_async. rewrite Hu.
  destruct reply as [e|data]; cbn.
  - split; [done|]. done.
  - destruct (bool_decide (status data = "success")) eqn:Hst; cbn; split; try done.
    intros [[e He] | (d & [= <-] & Hd)]; [done|].
    by apply bool_decide_eq_true_1 in Hst.
Qed.

Lemma leave_channel_failure_noop_witness :
  (runAsync (leaveChannel "general" (Rejected "TypeError: Failed to fetch"))
            joinedState).2.1 = joinedState.
Proof.
  refine (proj2 (leave_channel_failure_noop joinedState
                   (mkUser "bob" "127.0.0.1" 8000 9001 "127.0.0.1" 9002 "")
                   "general" (Rejected "TypeError: Failed to fetch") eq_refl) _).
  left. by eexists.
Defined.

Lemma joinChannel_cases st channelName trackerReply webpeerReply :
  let r := runAsync (joinChannel channelName trackerReply webpeerReply) st in
  (r.2.1 = st ∧ (r.1 = Returned () → channelName ∈ channels st))
  ∨ (r.1 = Returned () ∧ (channelName ∉ channels st)
     ∧ r.2.1 = joinedNewState channelName st).
Proof.
  unfold joinChannel. run_async.
  destruct (currentUser st) as [u|]; [|by left].
  destruct trackerReply as [e|data]; cbn; [by left|].
  destruct (bool_decide (status data = "success")); cbn; [|by left].
  destruct webpeerReply as [e|wdata]; cbn; [by left|].
  unfold includes. destruct (decide (channelName ∈ channels st)) as [Hin|Hout].
  - rewrite (bool_decide_eq_true_2 _ Hin).
    destruct (bool_decide (status wdata = "success")); cbn; by left.
  - rewrite (bool_decide_eq_false_2 _ Hout).
    destruct (bool_decide (status wdata = "success")); cbn; by right.
Qed.

Lemma joinChannel_new_run st u channelName data wdata :
  currentUser st = Some u → status data = "success" → channelName ∉ channels st →
  (runAsync (joinChannel channelName (Resolved data) (Resolved wdata)) st).2.1
  = joinedNewState channelName st.
Proof.
  intros Hu Hst Hout. unfold joinChannel. run_async. rewrite Hu. cbn.
  rewrite (bool_decide_eq_true_2 _ Hst). cbn.
  unfold includes. rewrite (bool_decide_eq_false_2 _ Hout).
  destruct (bool_decide (status wdata = "success")); by cbn.
Qed.

(** X15. Joining a channel that is not in the list and then leaving it
    (both accepted by the tracker) restores the channel list and leaves the
    store and the cursors without the channel's entries: whatever the
    conversation held before the join is gone, and if it held nothing the
    whole state is what it was before the join. *)
Theorem join_then_leave (st : AppState) (u : User) (channelName : string)
    (joinData webpeerData leaveData : StatusData)
    (Hu : currentUser st = Some u)
    (Hnew : channelName ∉ channels st)
    (Hjoin : status joinData = "success") (Hleave : status leaveData = "success") :
  let st1 := (runAsync (joinChannel channelName (Resolved joinData)
                          (Resolved webpeerData)) st).2.1 in
  let st2 := (runAsync (leaveChannel channelName (Resolved leaveData)) st1).2.1 in
  channels st2 = channels st
  ∧ messages st2 = delete channelName (messages st)
  ∧ lastReadPositions st2 = delete channelName (lastReadPositions st)
  ∧ (messages st !! channelName = None →
     lastReadPositions st !! channelName = None → st2 = st).
Proof.
  intros st1 st2.
  assert (Hst1 : st1 = joinedNewState channelName st)
    by by apply (joinChannel_new_run st u).
  assert (Hst2 : st2 = leftState channelName st1).
  { unfold st2. rewrite (leaveChannel_success st1 u channelName leaveData); [done| |done].
    by rewrite Hst1. }
  assert (Hch : channels st2 = channels st).
  { rewrite Hst2, Hst1. simpl. rewrite filter_app.
    rewrite (filter_all (λ c, c ≠ channelName) (channels st)) by (intros c Hc ->; done).
    rewrite filter_cons, decide_False by (intros H; by apply H).
    by rewrite filter_nil, app_nil_r. }
  assert (Hm : messages st2 = delete channelName (messages st)).
  { rewrite Hst2, Hst1. simpl. by rewrite delete_insert_eq. }
  assert (Hc : lastReadPositions st2 = delete channelName (lastReadPositions st)).
  { rewrite Hst2, Hst1. simpl. by rewrite delete_insert_eq. }
  repeat split; try done.
  intros Hm0 Hc0.
  rewrite (delete_id _ _ Hm0) in Hm. rewrite (delete_id _ _ Hc0) in Hc.
  assert (Hrest : currentUser st2 = currentUser st ∧ peers st2 = peers st
                  ∧ typingUsers st2 = typingUsers st) by by rewrite Hst2, Hst1.
  destruct Hrest as (H1 & H2 & H3).
  destruct st, st2. simpl in *. by subst.
Qed.

Lemma join_then_leave_witness :
  let alice := mkUser "alice" "127.0.0.1" 8000 9001 "127.0.0.1" 9002 "" in
  let st := withCurrentUser (Some alice) initialState in
  let ok := Resolved (mkStatusData "success" "") in
  (runAsync (leaveChannel "general" ok)
     (runAsync (joinChannel "general" ok ok) st).2.1).2.1 = st.
Proof.
  intros alice st ok.
  assert (Hnew : "general" ∉ channels st) by (simpl; apply not_elem_of_nil).
  exact (proj2 (proj2 (proj2
    (join_then_leave st alice "general" (mkStatusData "success" "")
       (mkStatusData "success" "") (mkStatusData "success" "")
       eq_refl Hnew eq_refl eq_refl))) eq_refl eq_refl).
Defined.

(** X16. [joinChannel] is all or nothing: when it throws (no identity,
    tracker request rejected or refused, WebPeer request rejected) the state
    is exactly what it was; and the status returned by the WebPeer service
    has no influence on the state, only a rejected request has. *)
Theorem join_channel_atomic (st : AppState) (channelName : string)
    (trackerReply webpeerReply : Reply StatusData) :
  (∀ error, (runAsync (joinChannel channelName trackerReply webpeerReply) st).1
            = Thrown error →
            (runAsync (joinChannel channelName trackerReply webpeerReply) st).2.1 = st)
  ∧ ∀ w1 w2,
      (runAsync (joinChannel channelName trackerReply (Resolved w1)) st).2.1
      = (runAsync (joinChannel channelName trackerReply (Resolved w2)) st).2.1.
Proof.
  split.
  - intros error Hthrown.
    destruct (joinChannel_cases st channelName trackerReply webpeerReply)
      as [[Hst _] | (Hret & _ & _)]; [done|].
    rewrite Hret in Hthrown. discriminate.
  - intros w1 w2. unfold joinChannel. run_async.
    destruct (currentUser st) as [u|]; [|done].
    destruct trackerReply as [e|data]; cbn; [done|].
    destruct (bool_decide (status data = "success")); cbn; [|done].
    destruct (includes channelName (channels st));
      destruct (bool_decide (status w1 = "success"));
      destruct (bool_decide (status w2 = "success")); by cbn.
Qed.

(** X17. Without an identity, [sendMessage], [joinChannel] and
    [leaveChannel] throw 'User not logged in' before doing anything (no
    append, no request), and [refreshPeerList] returns at once; the state is
    untouched in all four. *)
Theorem identity_required (st : AppState) (Hnone : currentUser st = None) :
  (∀ isoNow text target isChannel reply,
     runAsync (sendMessage isoNow text target isChannel reply) st
     = (Thrown "User not logged in", (st, [])))
  ∧ (∀ channelName r1 r2,
       runAsync (joinChannel channelName r1 r2) st
       = (Thrown "User not logged in", (st, [])))
  ∧ (∀ channelName reply,
       runAsync (leaveChannel channelName reply) st
       = (Thrown "User not logged in", (st, [])))
  ∧ (∀ reply, runAsync (refreshPeerList reply) st = (Returned (), (st, []))).
Proof.
  repeat split; intros; unfold leaveChannel, refreshPeerList; run_async;
    by rewrite Hnone.
Qed.

Lemma identity_required_witness :
  runAsync (sendMessage "T0" "hi" "bob" false (Resolved (mkStatusData "success" "")))
           initialState
  = (Thrown "User not logged in", (initialState, [])).
Proof.
  exact (proj1 (identity_required initialState eq_refl) "T0" "hi" "bob" false
               (Resolved (mkStatusData "success" ""))).
Defined.

(** ** refreshPeerList and registerPeer *)

(** X18. After a successful refresh the roster is the returned list
    without the current user (nobody is listed as their own peer), the
    channel list is replaced by the returned channel names when the reply
    carries them and kept otherwise, and the conversations, cursors, typing
    registry and identity are untouched. *)
Theorem refresh_peer_list_success (st : AppState) (u : User) (data : PeerListData)
    (Hu : currentUser st = Some u) (Hok : listStatus data = "success") :
  let r := runAsync (refreshPeerList (HttpOk data)) st in
  r.1 = Returned ()
  ∧ peers r.2.1 = filter (λ p, peer_username p ≠ username u) (listPeers data)
  ∧ Forall (λ p, peer_username p ≠ username u) (peers r.2.1)
  ∧ channels r.2.1 = default (channels st) (listChannels data)
  ∧ messages r.2.1 = messages st
  ∧ lastReadPositions r.2.1 = lastReadPositions st
  ∧ typingUsers r.2.1 = typingUsers st
  ∧ currentUser r.2.1 = Some u.
Proof.
  intros r.
  assert (Hpeers : Forall (λ p, peer_username p ≠ username u)
                     (filter (λ p, peer_username p ≠ username u) (listPeers data))).
  { apply Forall_forall. by intros p [Hp _]%list_elem_of_filter. }
  unfold r, refreshPeerList. run_async. rewrite Hu. cbn.
  rewrite (bool_decide_eq_true_2 _ Hok). cbn.
  destruct (listChannels data) as [keys|]; cbn; by repeat split.
Qed.

Lemma refresh_peer_list_success_witness :
  let alice := mkUser "alice" "127.0.0.1" 8000 9001 "127.0.0.1" 9002 "" in
  let st := withCurrentUser (Some alice) initialState in
  let data := mkPeerListData "success"
                [mkPeer "alice" "127.0.0.1" 9001; mkPeer "bob" "127.0.0.1" 9003]
                (Some ["general"]) in
  peers (runAsync (refreshPeerList (HttpOk data)) st).2.1 = [mkPeer "bob" "127.0.0.1" 9003].
Proof.
  intros alice st data.
  exact (proj1 (proj2 (refresh_peer_list_success st alice data eq_refl eq_refl))).
Defined.

(** X19. [refreshPeerList] never throws, and a refresh that fails
    (request rejected, HTTP status not ok, unreadable body, or a status other
    than "success") leaves the state exactly as it was: the previous roster
    and channel list stay. *)
Theorem refresh_peer_list_failure_noop (st : AppState) (reply : HttpReply PeerListData) :
  let r := runAsync (refreshPeerList reply) st in
  r.1 = Returned ()
  ∧ (match reply with
     | HttpOk data => listStatus data ≠ "success"
     | _ => True
     end → r.2.1 = st).
Proof.
  intros r. unfold r, refreshPeerList. run_async.
  destruct (currentUser st) as [u|]; [|done].
  destruct reply as [e|code|e|data]; cbn; try done.
  destruct (bool_decide (listStatus data = "success")) eqn:Hst; cbn.
  - apply bool_decide_eq_true_1 in Hst.
    destruct (listChannels data); cbn; by split.
  - done.
Qed.

Lemma refresh_peer_list_failure_noop_witness :
  (runAsync (refreshPeerList (HttpNotOk 500)) joinedState).2.1 = joinedState.
Proof.
  exact (proj2 (refresh_peer_list_failure_noop joinedState (HttpNotOk 500)) I).
Defined.

(** X20. [registerPeer] installs the identity only when both services
    accept: it returns exactly when the WebPeer service answers "success"
    and the tracker request is answered with an ok response; then the
    identity is the form's record with an empty token and nothing else
    changes.  Otherwise it throws and the state is untouched; if the WebPeer
    step fails the tracker is not contacted. *)
Theorem register_peer_all_or_nothing (st : AppState) (peerInfo : User)
    (webpeerReply : Reply StatusData) (trackerReply : HttpReply unit) :
  let r := runAsync (registerPeer peerInfo webpeerReply trackerReply) st in
  (r.1 = Returned () ↔ registrationAccepted webpeerReply trackerReply)
  ∧ (r.1 = Returned () →
       r.2.1 = withCurrentUser (Some (registeredUser peerInfo)) st)
  ∧ (r.1 ≠ Returned () → r.2.1 = st)
  ∧ ((∀ data, webpeerReply = Resolved data → status data ≠ "success") →
       r.2.2 = [Fetch (webpeerIp peerInfo) (webpeerPort peerInfo) "/init-peer"]).
Proof.
  intros r. unfold r, registrationAccepted, registerPeer, initWebPeer,
    registerPeerWithTracker. run_async.
  destruct webpeerReply as [e|data]; cbn.
  - split; [split; [done | by intros [(d & Hd & _) _]]|].
    repeat split; done.
  - destruct (bool_decide (status data = "success")) eqn:Hst; cbn.
    + apply bool_decide_eq_true_1 in Hst.
      destruct trackerReply as [e|code|e|[]]; cbn.
      * split; [split; [done | intros (_ & H & _); by destruct (H e)]|].
        repeat split; try done. intros H. by destruct (H data).
      * split; [split; [done | intros (_ & _ & H); by destruct (H code)]|].
        repeat split; try done. intros H. by destruct (H data).
      * split; [split; [intros _; repeat split; eauto; done | done]|].
        repeat split; try done. intros H. by destruct (H data).
      * split; [split; [intros _; repeat split; eauto; done | done]|].
        repeat split; try done. intros H. by destruct (H data).
    + apply bool_decide_eq_false_1 in Hst.
      split; [split; [done | intros [(d & [= <-] & Hd) _]; done]|].
      repeat split; done.
Qed.

Lemma register_peer_all_or_nothing_witness :
  let form := mkUser "alice" "127.0.0.1" 8001 9100 "127.0.0.1" 8002 "ignored" in
  let r := runAsync (registerPeer form (Resolved (mkStatusData "success" ""))
                       (HttpNotOk 500)) initialState in
  r.2.1 = initialState.
Proof.
  intros form r.
  refine (proj1 (proj2 (proj2 (register_peer_all_or_nothing initialState form
            (Resolved (mkStatusData "success" "")) (HttpNotOk 500)))) _).
  discriminate.
Defined.

(** ** The cursor invariant *)

Lemma registerPeer_state st peerInfo r1 r2 :
  messages (runAsync (registerPeer peerInfo r1 r2) st).2.1 = messages st
  ∧ lastReadPositions (runAsync (registerPeer peerInfo r1 r2) st).2.1
    = lastReadPositions st.
Proof.
  unfold registerPeer, initWebPeer, registerPeerWithTracker. run_async.
  destruct r1 as [e|data]; cbn; [done|].
  destruct (bool_decide (status data = "success")); cbn; [|done].
  by destruct r2 as [e|code|e|[]]; cbn.
Qed.

Lemma refreshPeerList_state st reply :
  messages (runAsync (refreshPeerList reply) st).2.1 = messages st
  ∧ lastReadPositions (runAsync (refreshPeerList reply) st).2.1 = lastReadPositions st.
Proof.
  unfold refreshPeerList. run_async.
  destruct (currentUser st) as [u|]; [|done].
  destruct reply as [e|code|e|data]; cbn; try done.
  destruct (bool_decide (listStatus data = "success")); cbn; [|done].
  by destruct (listChannels data); cbn.
Qed.

Lemma pollUpdater_length_mono u hidden batch (s : gmap string (list Message)) key :
  (length (default [] (s !! key))
   ≤ length (default [] ((pollUpdater u hidden batch s).1 !! key)))%nat.
Proof.
  rewrite pollUpdater_store.
  destruct (s !! key) as [l|] eqn:Hl; simpl; [|lia].
  destruct (mergeStore_fold_extends u batch s key l Hl) as (l' & -> & Hp); simpl.
  by apply prefix_length.
Qed.

Lemma cursorInv_same st st' :
  messages st' = messages st → lastReadPositions st' = lastReadPositions st →
  cursorInv st → cursorInv st'.
Proof. intros Hm Hc Hinv key c. rewrite Hm, Hc. apply Hinv. Qed.

Lemma perform_cursorInv a st : cursorInv st → cursorInv (perform a st).
Proof.
  intros Hinv.
  destruct a as [peerInfo r1 r2| |c r1 r2|c r|r|isoNow text target isChannel r
                 |u hidden r|target|target|target isTyping]; cbn [perform].
  - destruct (registerPeer_state st peerInfo r1 r2) as [Hm Hc].
    by apply (cursorInv_same st).
  - intros key c. simpl. by rewrite lookup_empty.
  - destruct (joinChannel_cases st c r1 r2) as [[-> _] | (_ & _ & ->)]; [done|].
    intros key c0. simpl. destruct (decide (key = c)) as [->|Hne].
    + rewrite !lookup_insert_eq. intros [= <-]. simpl. lia.
    + rewrite !lookup_insert_ne by done. apply Hinv.
  - destruct (leaveChannel_state st c r) as [-> | ->]; [done|].
    intros key c0. simpl. destruct (decide (key = c)) as [->|Hne].
    + by rewrite lookup_delete_eq.
    + rewrite !lookup_delete_ne by done. apply Hinv.
  - destruct (refreshPeerList_state st r) as [Hm Hc].
    by apply (cursorInv_same st).
  - destruct (currentUser st) as [u|] eqn:Hu.
    + rewrite (sendMessage_state st u isoNow text target isChannel r Hu).
      intros key c0. simpl. intros Hc0. specialize (Hinv key c0 Hc0).
      destruct (decide (key = target)) as [->|Hne].
      * rewrite lookup_insert_eq. simpl. rewrite length_app. simpl. lia.
      * by rewrite lookup_insert_ne.
    + by rewrite (sendMessage_logged_out st isoNow text target isChannel r Hu).
  - destruct (pollCallback_state u hidden r st) as [-> | (msgs & ->)]; [done|].
    intros key c0. simpl. intros Hc0. specialize (Hinv key c0 Hc0).
    pose proof (pollUpdater_length_mono u hidden msgs (messages st) key). lia.
  - intros key c0. unfold clearChat. simpl.
    destruct (decide (key = target)) as [->|Hne].
    + rewrite !lookup_insert_eq. intros [= <-]. simpl. lia.
    + rewrite !lookup_insert_ne by done. apply Hinv.
  - intros key c0. unfold markAsRead. simpl.
    destruct (decide (key = target)) as [->|Hne].
    + rewrite lookup_insert_eq. by intros [= <-].
    + rewrite lookup_insert_ne by done. apply Hinv.
  - done.
Qed.

(** X21. Every read cursor stays within its conversation: in every state
    reached from the initial one by any sequence of the provider's
    operations (register, logout, join, leave, refresh, send, settled poll,
    clear, mark as read, typing), with any replies of the remote services,
    each stored cursor is at most the length of its conversation's sequence. *)
Theorem cursor_within_sequence (actions : list Action) :
  cursorInv (performAll actions initialState)
  ∧ ∀ key, (default 0%nat (lastReadPositions (performAll actions initialState) !! key)
            ≤ length (default [] (messages (performAll actions initialState) !! key)))%nat.
Proof.
  assert (Hinv : cursorInv (performAll actions initialState)).
  { unfold performAll.
    assert (Hgen : ∀ st, cursorInv st →
              cursorInv (foldl (λ st a, perform a st) st actions)).
    { induction actions as [|a actions IH]; intros st Hst; cbn [foldl]; [done|].
      by apply IH, perform_cursorInv. }
    apply Hgen. intros key c. simpl. by rewrite lookup_empty. }
  split; [done|]. intros key.
  destruct (lastReadPositions (performAll actions initialState) !! key) as [c|] eqn:Hc;
    simpl; [by apply Hinv | lia].
Qed.

(** * The components around the provider *)

(** ** ChatInterface *)

Lemma click_exclusive c sel :
  ChatInterface.currentChannel sel = None ∨ ChatInterface.currentPeer sel = None →
  ChatInterface.currentChannel (ChatInterface.click c sel) = None
  ∨ ChatInterface.currentPeer (ChatInterface.click c sel) = None.
Proof.
  intros Hsel. destruct c as [[ch|]|[p|]]; simpl.
  - unfold ChatInterface.handleChannelSelect.
    destruct (bool_decide _); simpl; [by left | by right].
  - by left.
  - unfold ChatInterface.handlePeerSelect.
    destruct (bool_decide _); simpl; [by right | by left].
  - by right.
Qed.

(** X22. A channel and a peer are never selected together: after any
    sequence of selections in the sidebar, starting with nothing selected, at
    most one of the two is set, so the flag [handleSend] passes to
    [sendMessage] ([currentChannel !== null]) agrees with the header's
    channel test. *)
Theorem selection_exclusive (cs : list ChatInterface.Click) :
  let sel := ChatInterface.clicks cs ChatInterface.initial in
  (ChatInterface.currentChannel sel = None ∨ ChatInterface.currentPeer sel = None)
  ∧ headerIsChannel (ChatInterface.currentPeer sel) (ChatInterface.currentChannel sel)
    = bool_decide (ChatInterface.currentChannel sel ≠ None).
Proof.
  intros sel.
  assert (Hex : ChatInterface.currentChannel sel = None
                ∨ ChatInterface.currentPeer sel = None).
  { unfold sel, ChatInterface.clicks.
    assert (Hgen : ∀ s, ChatInterface.currentChannel s = None
                        ∨ ChatInterface.currentPeer s = None →
              let s' := foldl (λ sel c, ChatInterface.click c sel) s cs in
              ChatInterface.currentChannel s' = None ∨ ChatInterface.currentPeer s' = None).
    { induction cs as [|c cs IH]; intros s Hs; cbn [foldl]; [done|].
      by apply IH, click_exclusive. }
    apply Hgen. by left. }
  split; [done|].
  unfold headerIsChannel. destruct Hex as [-> | ->].
  - by rewrite (bool_decide_eq_false_2 (None ≠ None)) by (intros H; by apply H).
  - by rewrite (bool_decide_eq_true_2 (None = None)), andb_true_r.
Qed.

(** ** ChatArea: handleSend *)

Lemma sendMessage_outcome st u isoNow text target isChannel reply :
  currentUser st = Some u →
  ∃ effs,
    runAsync (sendMessage isoNow text target isChannel reply) st
    = (match reply with
       | Rejected error => Thrown error
       | Resolved _ => Returned ()
       end,
       (withMessages
          (λ prev, <[target := default [] (prev !! target) ++ [sentMessage u text isoNow]]> prev)
          st,
        effs)).
Proof.
  intros Hu. run_async. rewrite Hu.
  destruct isChannel, reply as [error|data]; cbn; eauto;
    destruct (bool_decide (status data = "success")); cbn; eauto.
Qed.

Lemma setTyping_false_not_typing target st :
  ¬ isTypingIn (typingName (currentUser st)) target (setTyping target false st).
Proof.
  exact (fire_not_typing (mkTimer 0 0 target (currentUser st)) st).
Qed.

(** X23. [handleSend] with a non-blank text, a selected conversation and an
    identity: the trimmed text is appended to the conversation as the user's
    own message, the user is no longer registered as typing there, and the
    pending typing timeout is left alone; when the remote call is answered
    the input is cleared, when it is rejected the input keeps its text and
    the error notification is shown (the appended copy stays). *)
Theorem handle_send_appends (trim : string → string) (isoNow : string)
    (currentPeer currentChannel : option string) (reply : Reply StatusData)
    (w : ChatArea) (u : User) (target : string)
    (Htext : trim (messageText w) ≠ "")
    (Htarget : currentTarget currentPeer currentChannel = Some target)
    (Hne : target ≠ "")
    (Hu : currentUser (areaApp w) = Some u) :
  let r := handleSend trim isoNow currentPeer currentChannel reply w in
  messages (areaApp r.1) !! target
    = Some (default [] (messages (areaApp w) !! target)
            ++ [sentMessage u (trim (messageText w)) isoNow])
  ∧ ¬ isTypingIn (typingName (Some u)) target (areaApp r.1)
  ∧ timers r.1 = timers w ∧ typingTimeoutRef r.1 = typingTimeoutRef w
  ∧ match reply with
    | Resolved _ =>
        messageText r.1 = ""
        ∧ Forall (λ e, ∀ text, e ≠ ShowNotification text) r.2
    | Rejected _ =>
        messageText r.1 = messageText w
        ∧ ShowNotification "Error sending message" ∈ r.2
    end.
Proof.
  intros r.
  assert (Hnot : ¬ isTypingIn (typingName (Some u)) target
                     (setTyping target false (areaApp w))).
  { rewrite <- Hu. apply setTyping_false_not_typing. }
  destruct (sendMessage_outcome (setTyping target false (areaApp w)) u isoNow
              (trim (messageText w)) target (bool_decide (currentChannel ≠ None))
              reply Hu) as (effs & Hrun).
  assert (Hr : r = let '(outcome, (app2, effs)) :=
                     runAsync (sendMessage isoNow (trim (messageText w)) target
                                 (bool_decide (currentChannel ≠ None)) reply)
                              (setTyping target false (areaApp w)) in
                   match outcome with
                   | Returned _ =>
                       ({| areaApp := app2; messageText := "";
                           typingTimeoutRef := typingTimeoutRef w; timers := timers w;
                           nextTimerId := nextTimerId w; now := now w |},
                        Provider <$> effs)
                   | Thrown error =>
                       ({| areaApp := app2; messageText := messageText w;
                           typingTimeoutRef := typingTimeoutRef w; timers := timers w;
                           nextTimerId := nextTimerId w; now := now w |},
                        (Provider <$> effs)
                        ++ [ShowNotification "Error sending message";
                            AreaConsoleError "Error sending message:"])
                   end).
  { unfold r, handleSend, truthyOpt, truthy. rewrite Htarget.
    rewrite (bool_decide_eq_false_2 _ Htext), (bool_decide_eq_false_2 _ Hne).
    done. }
  rewrite Hr, Hrun. clear Hr Hrun.
  destruct reply as [error|data]; cbn [fst snd areaApp timers typingTimeoutRef messageText].
  - split; [simpl; by rewrite lookup_insert_eq|]. split; [done|].
    split; [done|]. split; [done|]. split; [done|].
    apply elem_of_app. right. by left.
  - split; [simpl; by rewrite lookup_insert_eq|]. split; [done|].
    split; [done|]. split; [done|]. split; [done|].
    apply Forall_forall. intros e He text ->.
    apply list_elem_of_fmap in He as (e0 & He0 & _). discriminate.
Qed.

Lemma handle_send_appends_witness :
  let w := {| areaApp := areaApp aliceArea; messageText := "hi";
              typingTimeoutRef := None; timers := []; nextTimerId := 1; now := 0 |} in
  let r := handleSend (λ s, s) "T0" (Some "bob") None
             (Rejected "TypeError: Failed to fetch") w in
  messages (areaApp r.1) !! "bob"
    = Some [mkMessage "alice" "hi" "T0" None (Some true) (Some ∅)]
  ∧ messageText r.1 = "hi".
Proof.
  intros w r.
  assert (H1 : "hi" ≠ "") by discriminate.
  assert (H2 : "bob" ≠ "") by discriminate.
  destruct (handle_send_appends (λ s, s) "T0" (Some "bob") None
              (Rejected "TypeError: Failed to fetch") w
              (mkUser "alice" "127.0.0.1" 8000 9001 "127.0.0.1" 9002 "") "bob"
              H1 eq_refl H2 eq_refl) as (Hm & _ & _ & _ & Htxt & _).
  split; [exact Hm | exact Htxt].
Defined.

(** X24. The guards of [handleSend]: a text that is blank after trimming
    does nothing at all (no request, no append, input unchanged), even when
    no conversation is selected; a non-blank text without a selected
    conversation only shows the 'Select a channel or peer first!'
    notification. *)
Theorem handle_send_guards (trim : string → string) (isoNow : string)
    (currentPeer currentChannel : option string) (reply : Reply StatusData)
    (w : ChatArea) :
  (trim (messageText w) = "" →
     handleSend trim isoNow currentPeer currentChannel reply w = (w, []))
  ∧ (trim (messageText w) ≠ "" →
     truthyOpt (currentTarget currentPeer currentChannel) = false →
     handleSend trim isoNow currentPeer currentChannel reply w
     = (w, [ShowNotification "Select a channel or peer first!"])).
Proof.
  split.
  - intros Hblank. unfold handleSend, truthy.
    by rewrite (bool_decide_eq_true_2 _ Hblank).
  - intros Htext Hnone. unfold handleSend. rewrite Hnone.
    unfold truthy. by rewrite (bool_decide_eq_false_2 _ Htext).
Qed.

Lemma handle_send_guards_witness :
  handleSend (λ s, s) "T0" None None (Resolved (mkStatusData "success" "")) aliceArea
  = (aliceArea, []).
Proof.
  exact (proj1 (handle_send_guards (λ s, s) "T0" None None
                  (Resolved (mkStatusData "success" "")) aliceArea) eq_refl).
Defined.

(** ** ChatArea: the typing line *)

Lemma typingName_username u : typingName (Some u) = username u.
Proof.
  unfold typingName, truthy.
  destruct (bool_decide (username u = "")) eqn:Hn; simpl; [|done].
  by apply bool_decide_eq_true_1 in Hn.
Qed.

Lemma setTypingUpdater_own u target isTyping (prev : gmap string (gset string)) :
  (∀ k s, prev !! k = Some s → s = {[username u]}) →
  ∀ k s, setTypingUpdater (Some u) target isTyping prev !! k = Some s →
         s = {[username u]}.
Proof.
  intros Hown k s. destruct (decide (k = target)) as [->|Hne].
  - rewrite setTypingUpdater_target, typingName_username. cbn zeta.
    assert (Hold : default ∅ (prev !! target) = (∅ : gset string)
                   ∨ default ∅ (prev !! target) = ({[username u]} : gset string)).
    { destruct (prev !! target) as [old|] eqn:Ho; simpl; [right; by apply (Hown target)|].
      by left. }
    destruct isTyping.
    + case_match; [done|]. intros [= <-].
      destruct Hold as [-> | ->]; [apply (left_id_L ∅ (∪)) | apply (idemp_L (∪))].
    + case_match eqn:Hsz; [done|]. exfalso. apply Nat.eqb_neq in Hsz. apply Hsz.
      destruct Hold as [-> | ->].
      * by rewrite (subseteq_empty_difference_L ∅ {[username u]}) by apply empty_subseteq.
      * by rewrite (subseteq_empty_difference_L {[username u]} {[username u]}).
  - rewrite setTypingUpdater_other by done. apply Hown.
Qed.

Lemma typingAfter_own u calls :
  Forall (λ c : option User * string * bool, c.1.1 = Some u) calls →
  ∀ k s, typingAfter calls !! k = Some s → s = {[username u]}.
Proof.
  intros Hcalls. unfold typingAfter.
  assert (Hgen : ∀ reg : gmap string (gset string),
            (∀ k s, reg !! k = Some s → s = {[username u]}) →
            ∀ k s, foldl (λ reg '(cu, target, isTyping),
                            setTypingUpdater cu target isTyping reg) reg calls !! k = Some s →
                   s = {[username u]}).
  { induction Hcalls as [|[[cu target] isTyping] calls Hc Hcs IH]; intros reg Hreg;
      cbn [foldl]; [done|].
    simpl in Hc. subst cu. by apply IH, setTypingUpdater_own. }
  apply Hgen. intros k s. by rewrite lookup_empty.
Qed.

(** X25. The typing line never shows a name as long as one identity is in
    use: every [setTyping] call registers the current user's own name, and
    [typingUsersList] filters that name out, so for every registry reached by
    [setTyping] calls under the identity [u] the list is empty for every
    conversation. *)
Theorem typing_line_never_shows_self (u : User)
    (calls : list (option User * string * bool)) (st : AppState)
    (target : option string)
    (Hcalls : Forall (λ c : option User * string * bool, c.1.1 = Some u) calls)
    (Hu : currentUser st = Some u)
    (Hreg : typingUsers st = typingAfter calls) :
  typingUsersList target st = [].
Proof.
  unfold typingUsersList. destruct (truthyOpt target); [|done].
  apply filter_none. intros name Hin Hne. apply Hne. rewrite Hu. simpl. f_equal.
  rewrite Hreg in Hin.
  destruct (typingAfter calls !! default "" target) as [s|] eqn:Hs; simpl in Hin.
  - rewrite (typingAfter_own u calls Hcalls _ s Hs) in Hin.
    apply elem_of_elements in Hin. by apply elem_of_singleton in Hin.
  - rewrite elements_empty in Hin. by apply elem_of_nil in Hin.
Qed.

Lemma typing_line_never_shows_self_witness :
  let alice := mkUser "alice" "127.0.0.1" 8000 9001 "127.0.0.1" 9002 "" in
  let calls := [(Some alice, "bob", true); (Some alice, "general", true)] in
  let st := withTypingUsers (λ _, typingAfter calls)
              (withCurrentUser (Some alice) initialState) in
  typingUsersList (Some "bob") st = [].
Proof.
  intros alice calls st.
  apply (typing_line_never_shows_self alice calls st (Some "bob")).
  - repeat constructor.
  - reflexivity.
  - reflexivity.
Defined.

Lemma fold_fire_other (a : string) l st :
  (∀ t, t ∈ l → timerTarget t ≠ a) →
  typingUsers (foldl (λ st t, fire t st) st l) !! a = typingUsers st !! a.
Proof.
  revert st. induction l as [|t l IH]; intros st Hl; cbn [foldl]; [done|].
  rewrite IH by (intros t' Ht'; apply Hl; by right).
  unfold fire. simpl. apply setTypingUpdater_other.
  intros ->. by apply (Hl t); [left|].
Qed.

Lemma tick_timers_subset t w : t ∈ timers (tick w) → t ∈ timers w.
Proof. simpl. by intros [_ Ht]%list_elem_of_filter. Qed.

Lemma advance_timers_subset t ms w : t ∈ timers (advance ms w) → t ∈ timers w.
Proof.
  induction ms as [|ms IH]; [done|].
  rewrite advance_S_r. intros Ht%tick_timers_subset. by apply IH.
Qed.

Lemma advance_other_target (a : string) ms w :
  (∀ t, t ∈ timers w → timerTarget t ≠ a) →
  typingUsers (areaApp (advance ms w)) !! a = typingUsers (areaApp w) !! a.
Proof.
  intros Hw. induction ms as [|ms IH]; [done|].
  rewrite advance_S_r. simpl. rewrite fold_fire_other; [done|].
  intros t [_ Ht]%list_elem_of_filter. by apply Hw, (advance_timers_subset t ms).
Qed.

Lemma advance_ref ms w : typingTimeoutRef (advance ms w) = typingTimeoutRef w.
Proof.
  induction ms as [|ms IH]; [done|]. by rewrite advance_S_r.
Qed.

(** X26. Switching conversation while typing leaves a stale entry: the
    input handler cancels the previous timeout whatever conversation it was
    armed for, so after an input in [a] followed, within the window, by an
    input in another conversation [b], the user stays registered as typing in
    [a] however much time passes without further events. *)
Theorem typing_entry_stale_after_switch (w : ChatArea) (value1 value2 : string)
    (peer1 channel1 peer2 channel2 : option string) (a b : string) (d ms : nat)
    (Hwf : wfArea w)
    (Ha : currentTarget peer1 channel1 = Some a) (Hane : a ≠ "")
    (Hb : currentTarget peer2 channel2 = Some b) (Hbne : b ≠ "")
    (Hab : a ≠ b) (Hd : (d < typingWindow)%nat) :
  let name := typingName (currentUser (areaApp w)) in
  let w1 := handleInputChange value1 peer1 channel1 w in
  let w2 := handleInputChange value2 peer2 channel2 (advance d w1) in
  isTypingIn name a (areaApp (advance ms w2)).
Proof.
  intros name w1 w2.
  pose (ta := mkTimer (nextTimerId w) (now w + typingWindow) a (currentUser (areaApp w))).
  assert (Hw1 : areaApp w1 = setTyping a true (areaApp w)
                ∧ timers w1 = [ta] ∧ typingTimeoutRef w1 = Some (timerId ta)
                ∧ now w1 = now w).
  { unfold w1. rewrite (handleInputChange_active value1 peer1 channel1 a w Ha Hane).
    simpl. by rewrite (wfArea_cleared w Hwf). }
  destruct Hw1 as (Happ1 & Htim1 & Href1 & Hnow1).
  assert (Hquiet : areaApp (advance d w1) = areaApp w1 ∧ timers (advance d w1) = timers w1).
  { apply advance_quiet. intros t Ht. rewrite Htim1 in Ht.
    apply list_elem_of_singleton in Ht as ->. rewrite Hnow1. simpl. lia. }
  destruct Hquiet as [Happd Htimd].
  assert (Hwfd : wfArea (advance d w1)).
  { intros t Ht. rewrite advance_ref, Href1. rewrite Htimd, Htim1 in Ht.
    by apply list_elem_of_singleton in Ht as ->. }
  assert (Hw2 : typingUsers (areaApp w2) !! a = typingUsers (areaApp w1) !! a
                ∧ ∀ t, t ∈ timers w2 → timerTarget t ≠ a).
  { unfold w2.
    rewrite (handleInputChange_active value2 peer2 channel2 b (advance d w1) Hb Hbne).
    simpl. rewrite (wfArea_cleared _ Hwfd), Happd. split.
    - by apply setTypingUpdater_other.
    - intros t Ht. simpl in Ht. apply list_elem_of_singleton in Ht as ->. simpl.
      by intros ->. }
  destruct Hw2 as [Hlook2 Htim2].
  destruct (setTyping_true_registers a (areaApp w)) as (s & Hs & Hin).
  exists s. split; [|done].
  rewrite (advance_other_target a ms w2 Htim2), Hlook2, Happ1. exact Hs.
Qed.

Lemma typing_entry_stale_after_switch_witness :
  let w1 := handleInputChange "h" (Some "bob") None aliceArea in
  let w2 := handleInputChange "y" None (Some "general") (advance 1000 w1) in
  isTypingIn "alice" "bob" (areaApp (advance 5000 w2)).
Proof.
  intros w1 w2.
  assert (Hwf0 : wfArea aliceArea) by (intros t Ht; by apply elem_of_nil in Ht).
  assert (H1 : "bob" ≠ "") by discriminate.
  assert (H2 : "general" ≠ "") by discriminate.
  assert (H3 : "bob" ≠ "general") by discriminate.
  assert (H4 : (1000 < typingWindow)%nat) by (unfold typingWindow; lia).
  exact (typing_entry_stale_after_switch aliceArea "h" "y" (Some "bob") None None
           (Some "general") "bob" "general" 1000 5000 Hwf0 eq_refl H1 eq_refl H2 H3 H4).
Defined.

(** ** Search *)

Lemma List_filter_sublist {A} (p : A → bool) (l : list A) : List.filter p l `sublist_of` l.
Proof.
  induction l as [|x l IH]; simpl; [done|].
  destruct (p x); [by apply sublist_skip | by apply sublist_cons].
Qed.

(** X27. The search of a conversation never invents or reorders messages:
    the filtered list is a sublist of the conversation, every message in it
    matches the query in its body or its sender, a query that is blank after
    trimming shows the whole conversation, and the number ChatArea announces
    is the number of messages MessageList renders for the same query. *)
Theorem search_filter_sound (trim toLowerCase : string → string) (searchQuery : string)
    (currentPeer currentChannel : option string) (st : AppState) :
  let conversation :=
    if truthyOpt (currentTarget currentPeer currentChannel)
    then default [] (messages st !! default "" (currentTarget currentPeer currentChannel))
    else [] in
  let found := filteredMessages trim toLowerCase searchQuery currentPeer currentChannel st in
  found `sublist_of` conversation
  ∧ (trim searchQuery = "" → found = conversation)
  ∧ (trim searchQuery ≠ "" →
     ∀ m, m ∈ found ↔
          m ∈ conversation
          ∧ (includesString (toLowerCase searchQuery) (toLowerCase (message m)) = true
             ∨ includesString (toLowerCase searchQuery) (toLowerCase (from m)) = true))
  ∧ messageListMsgs trim toLowerCase searchQuery currentPeer currentChannel st = found.
Proof.
  intros conversation found. unfold found, filteredMessages, messageListMsgs.
  fold conversation. unfold truthy. split; [|split; [|split]].
  - destruct (negb _); [apply List_filter_sublist | done].
  - intros Hblank. by rewrite (bool_decide_eq_true_2 _ Hblank).
  - intros Hq m. rewrite (bool_decide_eq_false_2 _ Hq). cbn [negb].
    rewrite list_elem_of_In, filter_In, <- list_elem_of_In.
    unfold matchesQuery. by rewrite orb_true_iff.
  - done.
Qed.

Lemma search_filter_sound_witness :
  filteredMessages (λ s, s) (λ s, s) "" (Some "general") None joinedState
  = [mkMessage "carol" "yo" "2025-01-01T00:00:00.000Z" (Some "general")
               (Some false) (Some ∅)].
Proof.
  exact (proj1 (proj2 (search_filter_sound (λ s, s) (λ s, s) "" (Some "general") None
                         joinedState)) eq_refl).
Defined.

(** ** Sidebar previews *)






(** ** Relative time *)

(** X29. The relative-time label is in range: a timestamp less than a
    minute old, or in the future, reads 'Just now'; otherwise the label shows
    between 1 and 59 minutes, between 1 and 23 hours, or between 1 and 6
    days, each the whole number of units in the elapsed time; from seven days
    on, and for a timestamp that does not parse, the date is shown. *)
Theorem format_time_ranges (diff : Z) :
  formatTime None = LocaleDate
  ∧ match formatTime (Some diff) with
    | JustNow => (diff < 60000)%Z
    | MinutesAgo m => (1 ≤ m ≤ 59 ∧ 60000 * m ≤ diff < 60000 * (m + 1))%Z
    | HoursAgo h => (1 ≤ h ≤ 23 ∧ 3600000 * h ≤ diff < 3600000 * (h + 1))%Z
    | DaysAgo d => (1 ≤ d ≤ 6 ∧ 86400000 * d ≤ diff < 86400000 * (d + 1))%Z
    | LocaleDate => (604800000 ≤ diff)%Z
    end.
Proof.
  split; [done|]. unfold formatTime.
  pose proof (Z.div_mod diff 60000 ltac:(lia)) as Hm.
  pose proof (Z.mod_pos_bound diff 60000 ltac:(lia)) as Hmb.
  pose proof (Z.div_mod diff 3600000 ltac:(lia)) as Hh.
  pose proof (Z.mod_pos_bound diff 3600000 ltac:(lia)) as Hhb.
  pose proof (Z.div_mod diff 86400000 ltac:(lia)) as Hd.
  pose proof (Z.mod_pos_bound diff 86400000 ltac:(lia)) as Hdb.
  destruct (diff / 60000 <? 1)%Z eqn:H1; [apply Z.ltb_lt in H1; lia|].
  apply Z.ltb_ge in H1.
  destruct (diff / 60000 <? 60)%Z eqn:H2; [apply Z.ltb_lt in H2; lia|].
  apply Z.ltb_ge in H2.
  destruct (diff / 3600000 <? 24)%Z eqn:H3; [apply Z.ltb_lt in H3; lia|].
  apply Z.ltb_ge in H3.
  destruct (diff / 86400000 <? 7)%Z eqn:H4; [apply Z.ltb_lt in H4; lia|].
  apply Z.ltb_ge in H4. lia.
Qed.

(** ** Notification preferences *)

(** X30. The Settings panel and the dispatcher agree on the preferences:
    after the panel has written its two switches, the panel (on its next
    mount) and [playNotificationSound] both read the sound switch back, the
    panel reads the notification switch back and [showBrowserNotification]
    creates a notification exactly when that switch is on, the API exists and
    permission is granted; with nothing stored, sound is on and OS
    notifications are off for both. *)
Theorem settings_round_trip (soundEnabled browserNotificationsEnabled hasApi : bool)
    (permission : string) (storage : gmap string string) :
  let stored := settingsPersist soundEnabled browserNotificationsEnabled storage in
  settingsSoundEnabled stored = soundEnabled
  ∧ playNotificationSound stored = soundEnabled
  ∧ settingsBrowserNotificationsEnabled stored = browserNotificationsEnabled
  ∧ showBrowserNotification stored hasApi permission
    = browserNotificationsEnabled && hasApi && bool_decide (permission = "granted")
  ∧ settingsSoundEnabled ∅ = true ∧ playNotificationSound ∅ = true
  ∧ settingsBrowserNotificationsEnabled ∅ = false
  ∧ showBrowserNotification ∅ hasApi permission = false.
Proof.
  intros stored.
  assert (Hs : stored !! soundKey = Some (boolToString soundEnabled)).
  { unfold stored, settingsPersist. rewrite lookup_insert_ne by done.
    by rewrite lookup_insert_eq. }
  assert (Hn : stored !! browserNotificationsKey
               = Some (boolToString browserNotificationsEnabled)).
  { unfold stored, settingsPersist. by rewrite lookup_insert_eq. }
  unfold settingsSoundEnabled, settingsBrowserNotificationsEnabled, savedFlag,
    playNotificationSound, showBrowserNotification.
  rewrite Hs, Hn, !lookup_empty.
  destruct soundEnabled, browserNotificationsEnabled, hasApi; vm_compute; repeat split;
    destruct (String.eq_dec permission "granted"); done.
Qed.

(** * Instances of the unconditional statements *)

Lemma merge_step_notifies_new_foreign_witness :
  let alice := mkUser "alice" "127.0.0.1" 8000 9001 "127.0.0.1" 9002 "" in
  let hey := mkMessage "bob" "hey" "T1" None None None in
  ∃ title, (mergeRecord alice true hey (∅, [])).2
           = [PlayNotificationSound; ShowBrowserNotification title "hey"].
Proof.
  intros alice hey.
  destruct (merge_step_notifies_new_foreign alice true hey ∅ [])
    as (issued & Heq & _ & _ & Hforeign).
  destruct Hforeign as (title & Hissued).
  - intros Hsame. apply (f_equal (λ m : gmap string (list Message), m !! "bob")) in Hsame.
    vm_compute in Hsame. discriminate Hsame.
  - discriminate.
  - exists title. rewrite Heq, Hissued. reflexivity.
Defined.

Lemma merge_notification_policy_witness :
  let alice := mkUser "alice" "127.0.0.1" 8000 9001 "127.0.0.1" 9002 "" in
  let own := mkMessage "alice" "hi all" "T1" (Some "general") None None in
  Forall (λ e, isNotification e = false) (pollUpdater alice true [own; own] ∅).2.
Proof.
  intros alice own.
  apply (proj2 (merge_notification_policy alice [own; own] ∅) true).
  repeat constructor.
Defined.

Lemma unread_count_bounds_witness :
  unreadCounts joinedState !! "bob" = None.
Proof.
  exact (proj2 (proj2 (unread_count_bounds joinedState "bob")) eq_refl).
Defined.

Lemma clear_chat_local_witness :
  messages (clearChat "bob" joinedState) !! "general" = messages joinedState !! "general".
Proof.
  assert (Hne : "general" ≠ "bob") by discriminate.
  exact (proj1 (proj2 (proj2 (proj2 (clear_chat_local joinedState "bob"))) "general" Hne)).
Defined.

Lemma join_channel_atomic_witness :
  (runAsync (joinChannel "random" (Resolved (mkStatusData "error" "denied"))
               (Resolved (mkStatusData "success" ""))) joinedState).2.1
  = joinedState.
Proof.
  exact (proj1 (join_channel_atomic joinedState "random"
                  (Resolved (mkStatusData "error" "denied"))
                  (Resolved (mkStatusData "success" ""))) "denied" eq_refl).
Defined.
